(** * transform_content.py: HTML fragments to heading-oriented sections

    A shallow embedding of [ContentParser] and [transform_content_fields]
    from [src/transform_content.py], and the properties the specification
    states about them.

    Conventions of the embedding.
    - A Python [str] is a sequence of Unicode code points: [list N].
    - [ContentParser] is a subclass of the standard library's
      [html.parser.HTMLParser].  The tokenizer ([HTMLParser.feed]) is not
      code of this repository: in [Section Sectionizer] it is a parameter
      that maps the inherited state and the new data to the handler calls it
      makes, in order, and the inherited state it leaves, or to [None] when
      it raises.  [Module PyHTML] models it on a fragment of HTML, for
      end-to-end examples.
    - A method that mutates [self] is a function on the record of the
      instance's attributes; a Python exception is [None]. *)

From Stdlib Require Import String Ascii.
From Stdlib Require Import List NArith ZArith Bool Lia.
From Stdlib Require Import Floats.SpecFloat.
Import ListNotations.

(** ** Python strings *)

Definition str := list N.

(** An ASCII literal as a Python string. *)
Definition py (s : string) : str := map N_of_ascii (list_ascii_of_string s).

Definition nl : N := 10%N.
Definition sp : N := 32%N.
Definition dq : N := 34%N.

Fixpoint str_eqb (a b : str) : bool :=
  match a, b with
  | [], [] => true
  | x :: a', y :: b' => N.eqb x y && str_eqb a' b'
  | _, _ => false
  end.

(** [x in l] for a list (or set) of strings. *)
Definition str_in (x : str) (l : list str) : bool := existsb (str_eqb x) l.

(** Truthiness of a string or list: non-empty. *)
Definition truthy {A} (l : list A) : bool :=
  match l with [] => false | _ :: _ => true end.

(** [str.isspace] on one code point; [str.strip] and the regular
    expression class [\s] (on [str] patterns) use the same test. *)
Definition isspace (c : N) : bool :=
  ((9 <=? c) && (c <=? 13) || (28 <=? c) && (c <=? 32)
   || (c =? 133) || (c =? 160) || (c =? 5760)
   || (8192 <=? c) && (c <=? 8202)
   || (c =? 8232) || (c =? 8233) || (c =? 8239) || (c =? 8287)
   || (c =? 12288))%N.

Fixpoint lstrip (s : str) : str :=
  match s with
  | c :: r => if isspace c then lstrip r else s
  | [] => []
  end.

Definition rstrip (s : str) : str := rev (lstrip (rev s)).

(** [s.strip()] *)
Definition strip (s : str) : str := rstrip (lstrip s).

(** [sep.join(l)] *)
Fixpoint join (sep : str) (l : list str) : str :=
  match l with
  | [] => []
  | [x] => x
  | x :: r => x ++ sep ++ join sep r
  end.

(** ** The two regular-expression substitutions of [_save_section]

    [re.sub(pattern, repl, s)] scans [s] from left to right; where the
    pattern matches at the current position (with a match of at least one
    character, as both patterns here require) it emits [repl] and resumes
    after the match, otherwise it copies one character.  [m s] is the
    length of the match of the pattern at the start of [s]. *)

Fixpoint re_sub_from (m : str -> option nat) (repl : str)
         (skip : nat) (s : str) : str :=
  match s with
  | [] => []
  | c :: r =>
      match skip with
      | S k => re_sub_from m repl k r
      | O =>
          match m s with
          | Some (S k) => repl ++ re_sub_from m repl k r
          | _ => c :: re_sub_from m repl O r
          end
      end
  end.

Definition re_sub (m : str -> option nat) (repl s : str) : str :=
  re_sub_from m repl 0 s.

Fixpoint take_while (p : N -> bool) (s : str) : str :=
  match s with
  | c :: r => if p c then c :: take_while p r else []
  | [] => []
  end.

Fixpoint drop_while (p : N -> bool) (s : str) : str :=
  match s with
  | c :: r => if p c then drop_while p r else s
  | [] => []
  end.

(** The pattern [' +']: the greedy run of spaces at the start. *)
Definition match_spaces (s : str) : option nat :=
  match length (take_while (N.eqb sp) s) with
  | O => None
  | n => Some n
  end.

(** In a run [w] of whitespace, the number of characters up to and
    including its last newline. *)
Fixpoint last_nl_end (w : str) : option nat :=
  match w with
  | [] => None
  | c :: r =>
      match last_nl_end r with
      | Some k => Some (S k)
      | None => if N.eqb c nl then Some 1 else None
      end
  end.

(** The pattern ['\n\s*\n+']: a newline, then [\s*] takes the whole run
    of whitespace that follows and gives back characters until [\n+] can
    match, which is at the last newline of that run. *)
Definition match_blank (s : str) : option nat :=
  match s with
  | c :: r =>
      if N.eqb c nl then
        match last_nl_end (take_while isspace r) with
        | Some k => Some (S k)
        | None => None
        end
      else None
  | [] => None
  end.

(** Lines 57-61: the description of a section from its content parts. *)
Definition clean_description (content : list str) : str :=
  let description := strip (concat content) in
  let description := re_sub match_blank [nl; nl] description in
  let description := re_sub match_spaces [sp] description in
  strip description.

(** ** Vocabulary of the whitespace properties *)

(** No newline in [s]. *)
Definition no_newline (s : str) : bool := negb (existsb (N.eqb nl) s).

(** The run of whitespace that ends [u] has no newline. *)
Definition ends_without_newline (u : str) : bool :=
  no_newline (take_while isspace (rev u)).

(** The run of whitespace that starts [v] has no newline. *)
Definition starts_without_newline (v : str) : bool :=
  no_newline (take_while isspace v).


(** [v] does not start with a space. *)
Definition starts_without_space (v : str) : bool :=
  match v with c :: _ => negb (N.eqb sp c) | [] => true end.

(** No two spaces in a row. *)
Fixpoint no_double_space (s : str) : bool :=
  match s with
  | a :: r =>
      match r with
      | b :: _ => negb (N.eqb sp a && N.eqb sp b)
      | [] => true
      end && no_double_space r
  | [] => true
  end.

(** No whitespace at either end. *)
Definition trimmed (s : str) : bool :=
  match s with c :: _ => negb (isspace c) | [] => true end
  && match rev s with c :: _ => negb (isspace c) | [] => true end.

(** A word: a non-empty string without whitespace. *)
Definition word (u : str) : bool :=
  truthy u && forallb (fun c => negb (isspace c)) u.

(** The matches of the pattern [m] that start in [u] are decided inside
    [u]: at every position of [u] the pattern matches as if [u] ended
    the string, and never beyond it. *)
Definition decided_within (m : str -> option nat) (u X : str) : Prop :=
  forall a c t, u = a ++ c :: t ->
    m ((c :: t) ++ X) = m (c :: t)
    /\ forall j, m (c :: t) = Some j -> j <= length (c :: t).

(** ** Section records and handler calls *)

Record SectionRecord := mkSection {
  headingType : str;
  section : str;
  description : str
}.

(** The calls [HTMLParser.feed] makes on the handlers [ContentParser]
    overrides; [handle_startendtag] is inherited and calls
    [handle_starttag] then [handle_endtag]. *)
Inductive event :=
| Starttag (tag : str) (attrs : list (str * option str))
| Endtag (tag : str)
| Data (data : str).

Definition headings : list str :=
  map py ["h1"; "h2"; "h3"; "h4"; "h5"; "h6"]%string.

Definition preserve_tags : list str :=
  map py ["b"; "strong"; "i"; "em"; "a"; "sup"; "sub"]%string.

(** [f'{k}="{v}"']: a value that is [None] is formatted as [None]. *)
Definition fmt_attr (kv : str * option str) : str :=
  fst kv ++ py "=" ++ [dq]
  ++ match snd kv with Some v => v | None => py "None" end
  ++ [dq].

(** [q s]: [s] between double quotes. *)
Definition q (s : str) : str := dq :: s ++ [dq].

Definition is_some {A} (o : option A) : bool :=
  match o with Some _ => true | None => false end.

Definition heading_truthy (h : option str) : bool :=
  match h with Some t => truthy t | None => false end.

(** [l[-1]] of a non-empty list. *)
Definition top (l : list str) : option str :=
  match rev l with t :: _ => Some t | [] => None end.

Section Sectionizer.

(** The attributes of [HTMLParser] (its buffer [rawdata] among them) and
    [HTMLParser.feed] on them: the handler calls it makes and the state it
    leaves, or [None] when it raises (as CPython 3.11 does on some
    declarations). *)
Variable base : Type.
Variable feed : base -> str -> option (list event * base).
(** What [HTMLParser.__init__] (through [reset]) sets. *)
Variable base_init : base.

Record ContentParser := mkParser {
  inherited : base;
  sections : list SectionRecord;
  current_heading : option str;
  current_heading_type : option str;
  current_content : list str;
  in_heading : bool;
  tag_stack : list str
}.

(** [ContentParser()] *)
Definition init : ContentParser :=
  mkParser base_init [] None None [] false [].

Definition _save_section (self : ContentParser) : ContentParser :=
  let sections' :=
    if heading_truthy (current_heading self) || truthy (current_content self)
    then
      sections self ++
      [ mkSection
          (match current_heading_type self with
           | Some t => if truthy t then t else py "p"
           | None => py "p"
           end)
          (match current_heading self with
           | Some h => if truthy h then strip h else []
           | None => []
           end)
          (clean_description (current_content self)) ]
    else sections self in
  mkParser (inherited self) sections' None None []
           (in_heading self) (tag_stack self).

Definition handle_starttag (self : ContentParser) (tag : str)
           (attrs : list (str * option str)) : ContentParser :=
  if str_in tag headings then
    let self := if is_some (current_heading self)
                then _save_section self else self in
    mkParser (inherited self) (sections self) (Some []) (Some tag)
             (current_content self) true (tag_stack self)
  else if str_in tag preserve_tags then
    let attrs_str := join (py " ") (map fmt_attr attrs) in
    let piece :=
      if truthy attrs_str
      then py "<" ++ tag ++ py " " ++ attrs_str ++ py ">"
      else py "<" ++ tag ++ py ">" in
    mkParser (inherited self) (sections self) (current_heading self)
             (current_heading_type self) (current_content self ++ [piece])
             (in_heading self) (tag_stack self ++ [tag])
  else if str_eqb tag (py "br") then
    mkParser (inherited self) (sections self) (current_heading self)
             (current_heading_type self) (current_content self ++ [[nl]])
             (in_heading self) (tag_stack self)
  else self.

Definition handle_endtag (self : ContentParser) (tag : str)
  : ContentParser :=
  if str_in tag headings then
    mkParser (inherited self) (sections self) (current_heading self)
             (current_heading_type self) (current_content self)
             false (tag_stack self)
  else if str_in tag preserve_tags then
    match top (tag_stack self) with
    | Some t =>
        if str_eqb t tag then
          mkParser (inherited self) (sections self) (current_heading self)
                   (current_heading_type self)
                   (current_content self ++ [py "</" ++ tag ++ py ">"])
                   (in_heading self) (removelast (tag_stack self))
        else self
    | None => self
    end
  else self.

(** [self.current_heading += data] raises [TypeError] when
    [current_heading] is [None]. *)
Definition handle_data (self : ContentParser) (data : str)
  : option ContentParser :=
  if in_heading self then
    match current_heading self with
    | Some h =>
        Some (mkParser (inherited self) (sections self) (Some (h ++ data))
                       (current_heading_type self) (current_content self)
                       true (tag_stack self))
    | None => None
    end
  else
    Some (mkParser (inherited self) (sections self) (current_heading self)
                   (current_heading_type self) (current_content self ++ [data])
                   false (tag_stack self)).

Definition dispatch (self : ContentParser) (e : event)
  : option ContentParser :=
  match e with
  | Starttag tag attrs => Some (handle_starttag self tag attrs)
  | Endtag tag => Some (handle_endtag self tag)
  | Data data => handle_data self data
  end.

(** The handler calls of one [feed], in order. *)
Fixpoint run_events (self : ContentParser) (evs : list event)
  : option ContentParser :=
  match evs with
  | [] => Some self
  | e :: evs' =>
      match dispatch self e with
      | Some self' => run_events self' evs'
      | None => None
      end
  end.

(** [not html_content or not html_content.strip()] *)
Definition blank (s : str) : bool :=
  negb (truthy s) || negb (truthy (strip s)).

(** Lines 79-84: the attributes [parse_content] assigns before [feed];
    the inherited ones are not among them. *)
Definition reset_fields (self : ContentParser) : ContentParser :=
  mkParser (inherited self) [] None None [] false [].

Definition set_inherited (self : ContentParser) (b : base) : ContentParser :=
  mkParser b (sections self) (current_heading self)
           (current_heading_type self) (current_content self)
           (in_heading self) (tag_stack self).

(** Lines 89-91. *)
Definition save_last (self : ContentParser) : ContentParser :=
  if is_some (current_heading self) || truthy (current_content self)
  then _save_section self else self.

Definition parse_content (self : ContentParser) (html_content : str)
  : option (list SectionRecord * ContentParser) :=
  if blank html_content then Some ([], self)
  else
    let self := reset_fields self in
    match feed (inherited self) html_content with
    | Some (evs, b) =>
        match run_events self evs with
        | Some self =>
            let self := save_last (set_inherited self b) in
            Some (sections self, self)
        | None => None
        end
    | None => None                (* line 87: the exception propagates *)
    end.

(** In [handle_data], [current_heading] is a string whenever [in_heading]
    is set: nothing sets [in_heading] without it. *)
Definition heading_open (p : ContentParser) : Prop :=
  in_heading p = true -> current_heading p <> None.

(** What [_save_section] would append. *)
Definition pending_section (p : ContentParser) : SectionRecord :=
  mkSection
    (match current_heading_type p with
     | Some t => if truthy t then t else py "p"
     | None => py "p"
     end)
    (match current_heading p with Some h => strip h | None => [] end)
    (clean_description (current_content p)).

End Sectionizer.

Arguments mkParser {base}.
Arguments inherited {base}.
Arguments sections {base}.
Arguments current_heading {base}.
Arguments current_heading_type {base}.
Arguments current_content {base}.
Arguments in_heading {base}.
Arguments tag_stack {base}.
Arguments init {base}.
Arguments _save_section {base}.
Arguments handle_starttag {base}.
Arguments handle_endtag {base}.
Arguments handle_data {base}.
Arguments dispatch {base}.
Arguments run_events {base}.
Arguments reset_fields {base}.
Arguments set_inherited {base}.
Arguments save_last {base}.
Arguments parse_content {base}.
Arguments heading_open {base}.
Arguments pending_section {base}.

(** ** The tokenizer on a fragment of HTML

    [HTMLParser.goahead(end=False)] of CPython's [html/parser.py], with
    [convert_charrefs] true as [ContentParser.__init__] leaves it, on the
    inputs made of
    - text without [&] (so that [unescape] is the identity);
    - start tags [<name attr ...>], the name of ASCII letters and digits,
      each attribute [name] or [name="value"] after ASCII white space, the
      value without [&];
    - end tags [</name>];
    - marked sections [<![name ...] whose keyword is none of the known
      ones, on which [parse_marked_section] of CPython 3.11 raises
      [AssertionError].
    A construct cut off by the end of the buffer stays in [rawdata] for
    the next [feed].  On any other input (comments, other declarations,
    character references, [script] and [style], other attribute syntax)
    the model answers [Outside] and says nothing. *)

Module PyHTML.

Definition lt : N := 60%N.
Definition gt : N := 62%N.
Definition amp : N := 38%N.
Definition slash : N := 47%N.
Definition eq : N := 61%N.
Definition bang : N := 33%N.
Definition lbracket : N := 91%N.

Definition is_alpha (c : N) : bool :=
  ((65 <=? c) && (c <=? 90) || (97 <=? c) && (c <=? 122))%N.

Definition is_alnum (c : N) : bool :=
  is_alpha c || ((48 <=? c) && (c <=? 57))%N.

(** Characters of an attribute name in the fragment. *)
Definition is_attr_char (c : N) : bool :=
  is_alnum c || (c =? 45)%N || (c =? 95)%N.

(** Tab, newline, form feed, carriage return, space: white space that
    also ends a tag name. *)
Definition is_sep (c : N) : bool :=
  ((c =? 9) || (c =? 10) || (c =? 12) || (c =? 13) || (c =? 32))%N.

(** [str.lower] on ASCII. *)
Definition lower (s : str) : str :=
  map (fun c => if ((65 <=? c) && (c <=? 90))%N then (c + 32)%N else c) s.

Inductive tag_result :=
| Incomplete                       (* returns -1: wait for more data *)
| Complete (evs : list event) (rest : str)
| Raise                            (* raises AssertionError *)
| Unsupported.                     (* not in the fragment *)

(** What [goahead] does on a buffer: the handler calls and what stays in
    [rawdata]; or it raises; or the buffer is outside the fragment. *)
Inductive outcome :=
| Tokens (evs : list event) (rest : str)
| Raises
| Outside.

(** Characters of the keyword of a marked section. *)
Definition is_declname_char (c : N) : bool :=
  is_alnum c || (c =? 45)%N || (c =? 95)%N || (c =? 46)%N.

(** [parse_marked_section] with [_scan_name]: [s] follows the three
    characters that open a marked section.  The keyword is a letter and
    then letters, digits, [-], [_] or [.], with the whitespace after it; a
    keyword that reaches the end of the buffer waits for more data; no
    keyword, or one that is none of the known eight, raises. *)
Definition parse_marked_section (s : str) : tag_result :=
  match s with
  | [] => Incomplete
  | c :: _ =>
      if is_alpha c then
        match drop_while isspace (drop_while is_declname_char s) with
        | [] => Incomplete
        | _ :: _ =>
            if str_in (lower (take_while is_declname_char s))
                      (map py ["temp"; "cdata"; "ignore"; "include";
                               "rcdata"; "if"; "else"; "endif"]%string)
            then Unsupported
            else Raise
        end
      else Raise
  end.

(** The attributes of a start tag, from the end of the tag name on. *)
Fixpoint attrs_loop (fuel : nat) (tag : str)
         (acc : list (str * option str)) (s : str) : tag_result :=
  match fuel with
  | O => Unsupported
  | S fuel =>
      match s with
      | [] => Incomplete
      | c :: s' =>
          if N.eqb c gt then Complete [Starttag tag acc] s'
          else if is_sep c then
            match drop_while is_sep s with
            | [] => Incomplete
            | d :: s1' =>
                if N.eqb d gt then Complete [Starttag tag acc] s1'
                else if is_alpha d then
                  let aname := lower (take_while is_attr_char (d :: s1')) in
                  match drop_while is_attr_char (d :: s1') with
                  | [] => Incomplete
                  | e :: s2' =>
                      if N.eqb e eq then
                        match s2' with
                        | [] => Incomplete
                        | q :: s3 =>
                            if N.eqb q dq then
                              let v := take_while (fun x => negb (N.eqb x dq)) s3 in
                              match drop_while (fun x => negb (N.eqb x dq)) s3 with
                              | [] => Incomplete
                              | _ :: s5 =>
                                  if existsb (N.eqb amp) v then Unsupported
                                  else attrs_loop fuel tag
                                         (acc ++ [(aname, Some v)]) s5
                              end
                            else Unsupported
                        end
                      else attrs_loop fuel tag (acc ++ [(aname, None)])
                                      (e :: s2')
                  end
                else Unsupported
            end
          else Unsupported
      end
  end.

(** [parse_starttag]: [s] follows the opening angle bracket and starts
    with a letter. *)
Definition parse_starttag (s : str) : tag_result :=
  let tag := lower (take_while is_alnum s) in
  if str_in tag (map py ["script"; "style"]%string) then Unsupported
  else attrs_loop (S (length s)) tag [] (drop_while is_alnum s).

(** [parse_endtag]: [s] follows the two characters that open an end
    tag. *)
Definition parse_endtag (s : str) : tag_result :=
  let name := take_while (fun x => negb (N.eqb x gt)) s in
  match drop_while (fun x => negb (N.eqb x gt)) s with
  | [] => Incomplete
  | _ :: rest =>
      match name with
      | c :: _ =>
          if is_alpha c && forallb is_alnum name
          then Complete [Endtag (lower name)] rest
          else Unsupported
      | [] => Unsupported
      end
  end.

(** The loop of [goahead]. *)
Fixpoint goahead (fuel : nat) (rawdata : str) : outcome :=
  match fuel with
  | O => Outside
  | S fuel =>
      match rawdata with
      | [] => Tokens [] []
      | c :: r =>
          if N.eqb c lt then
            let k :=
              match r with
              | d :: r' =>
                  if is_alpha d then parse_starttag r
                  else if N.eqb d slash then parse_endtag r'
                  else if N.eqb d bang then
                    match r' with
                    | e :: r'' =>
                        if N.eqb e lbracket then parse_marked_section r''
                        else Unsupported
                    | [] => Unsupported
                    end
                  else Unsupported
              | [] => Unsupported
              end in
            match k with
            | Incomplete => Tokens [] rawdata
            | Complete evs rest =>
                match goahead fuel rest with
                | Tokens evs' raw' => Tokens (evs ++ evs') raw'
                | Raises => Raises
                | Outside => Outside
                end
            | Raise => Raises
            | Unsupported => Outside
            end
          else
            let text := take_while (fun x => negb (N.eqb x lt)) rawdata in
            if existsb (N.eqb amp) text then Outside
            else
              match goahead fuel
                      (drop_while (fun x => negb (N.eqb x lt)) rawdata) with
              | Tokens evs' raw' => Tokens (Data text :: evs') raw'
              | Raises => Raises
              | Outside => Outside
              end
      end
  end.

(** [goahead] on the whole buffer. *)
Definition tokenize (rawdata : str) : outcome :=
  goahead (S (length rawdata)) rawdata.

(** The inherited state: [rawdata]. *)
Definition base := str.

(** [HTMLParser.reset]: an empty buffer. *)
Definition base_init : base := [].

(** [HTMLParser.feed]: [self.rawdata = self.rawdata + data], then
    [goahead(0)].  [None] stands for no modelled result: [goahead] raises,
    or the buffer is outside the fragment; [tokenize] tells which. *)
Definition feed (b : base) (data : str) : option (list event * base) :=
  match tokenize (b ++ data) with
  | Tokens evs rest => Some (evs, rest)
  | Raises => None
  | Outside => None
  end.

(** [ContentParser.parse_content] on this tokenizer. *)
Definition parse (self : ContentParser base) (html_content : str) :=
  parse_content feed self html_content.

Definition fresh : ContentParser base := init base_init.

End PyHTML.

(** ** JSON values and the field rewriter *)

(** What [json.load] yields: [dict] (insertion-ordered, keys unique),
    [list], [str], [int], [float], [bool], [None]. *)
Inductive number :=
| NInt (z : Z)
| NFloat (f : spec_float).

Unset Elimination Schemes.
Inductive value :=
| VNull
| VBool (b : bool)
| VNum (n : number)
| VStr (s : str)
| VList (items : list value)
| VDict (fields : list (str * value)).
Set Elimination Schemes.

(** Induction on JSON values, through the lists and dicts. *)
Fixpoint value_ind (P : value -> Prop)
         (Hnull : P VNull) (Hbool : forall b, P (VBool b))
         (Hnum : forall n, P (VNum n)) (Hstr : forall s, P (VStr s))
         (Hlist : forall items, Forall P items -> P (VList items))
         (Hdict : forall fields,
             Forall (fun kv => P (snd kv)) fields -> P (VDict fields))
         (v : value) {struct v} : P v :=
  match v with
  | VNull => Hnull
  | VBool b => Hbool b
  | VNum n => Hnum n
  | VStr s => Hstr s
  | VList items =>
      Hlist items
        ((fix go (l : list value) : Forall P l :=
            match l with
            | [] => Forall_nil _
            | x :: r =>
                Forall_cons x
                  (value_ind P Hnull Hbool Hnum Hstr Hlist Hdict x) (go r)
            end) items)
  | VDict fields =>
      Hdict fields
        ((fix go (l : list (str * value))
            : Forall (fun kv => P (snd kv)) l :=
            match l with
            | [] => Forall_nil _
            | kv :: r =>
                Forall_cons kv
                  (value_ind P Hnull Hbool Hnum Hstr Hlist Hdict (snd kv))
                  (go r)
            end) fields)
  end.

(** Strings (anywhere but directly under [content] in a dict), numbers,
    booleans and null. *)
Definition is_scalar (v : value) : bool :=
  match v with
  | VNull | VBool _ | VNum _ | VStr _ => true
  | VList _ | VDict _ => false
  end.

(** [d[k] = v] on an insertion-ordered dict: an existing key keeps its
    place, a new one goes last. *)
Fixpoint dict_set (d : list (str * value)) (k : str) (v : value)
  : list (str * value) :=
  match d with
  | [] => [(k, v)]
  | (k', v') :: r =>
      if str_eqb k' k then (k', v) :: r else (k', v') :: dict_set r k v
  end.

(** The dict [_save_section] appends, and the list [parse_content]
    returns, as JSON values. *)
Definition section_value (r : SectionRecord) : value :=
  VDict [ (py "headingType", VStr (headingType r));
          (py "section", VStr (section r));
          (py "description", VStr (description r)) ].

Definition sections_value (l : list SectionRecord) : value :=
  VList (map section_value l).

(** [key == 'content' and isinstance(value, str)] *)
Definition content_string (key : str) (v : value) : option str :=
  if str_eqb key (py "content")
  then match v with VStr s => Some s | _ => None end
  else None.

(** A value the rewriter has nothing to do on: no dict in it has a
    string under the key [content] (and its dicts have unique keys, as
    every Python dict has). *)
#[warnings="-register-all"]
Inductive settled : value -> Prop :=
| settled_null : settled VNull
| settled_bool b : settled (VBool b)
| settled_num n : settled (VNum n)
| settled_str s : settled (VStr s)
| settled_list items : Forall settled items -> settled (VList items)
| settled_dict fields :
    NoDup (map fst fields) ->
    Forall (fun kv => content_string (fst kv) (snd kv) = None
                      /\ settled (snd kv)) fields ->
    settled (VDict fields).

Section Rewriter.

Variable base : Type.
Variable feed : base -> str -> option (list event * base).

Fixpoint transform_content_fields (obj : value) (parser : ContentParser base)
  : option (value * ContentParser base) :=
  match obj with
  | VDict fields =>
      let step (acc : option (list (str * value) * ContentParser base))
               (kv : str * value) :=
        match acc with
        | None => None
        | Some (new_obj, p) =>
            match content_string (fst kv) (snd kv) with
            | Some s =>
                match parse_content feed p s with
                | Some (secs, p') =>
                    Some (dict_set new_obj (fst kv) (sections_value secs), p')
                | None => None
                end
            | None =>
                match transform_content_fields (snd kv) p with
                | Some (v', p') => Some (dict_set new_obj (fst kv) v', p')
                | None => None
                end
            end
        end in
      match fold_left step fields (Some ([], parser)) with
      | Some (new_obj, p) => Some (VDict new_obj, p)
      | None => None
      end
  | VList items =>
      let step (acc : option (list value * ContentParser base)) (item : value) :=
        match acc with
        | None => None
        | Some (out, p) =>
            match transform_content_fields item p with
            | Some (v', p') => Some (out ++ [v'], p')
            | None => None
            end
        end in
      match fold_left step items (Some ([], parser)) with
      | Some (out, p) => Some (VList out, p)
      | None => None
      end
  | _ => Some (obj, parser)
  end.

(** One turn of the loop over [obj.items()]. *)
Definition dict_step (acc : option (list (str * value) * ContentParser base))
           (kv : str * value) :=
  match acc with
  | None => None
  | Some (new_obj, p) =>
      match content_string (fst kv) (snd kv) with
      | Some s =>
          match parse_content feed p s with
          | Some (secs, p') =>
              Some (dict_set new_obj (fst kv) (sections_value secs), p')
          | None => None
          end
      | None =>
          match transform_content_fields (snd kv) p with
          | Some (v', p') => Some (dict_set new_obj (fst kv) v', p')
          | None => None
          end
      end
  end.

(** One turn of the list comprehension. *)
Definition list_step (acc : option (list value * ContentParser base))
           (item : value) :=
  match acc with
  | None => None
  | Some (out, p) =>
      match transform_content_fields item p with
      | Some (v', p') => Some (out ++ [v'], p')
      | None => None
      end
  end.

(** What the rewriter puts in place of one field of a dict. *)
Definition field_rewritten (kv kv' : str * value) : Prop :=
  fst kv' = fst kv /\
  match content_string (fst kv) (snd kv) with
  | Some s =>
      exists pa secs pb,
        parse_content feed pa s = Some (secs, pb)
        /\ snd kv' = sections_value secs
  | None => exists pa pb, transform_content_fields (snd kv) pa = Some (snd kv', pb)
  end.

(** What the rewriter puts in place of one item of a list. *)
Definition item_rewritten (x y : value) : Prop :=
  exists pa pb, transform_content_fields x pa = Some (y, pb).

(** Whatever the rewriter returns on [v] is settled. *)
Definition settles (v : value) : Prop :=
  forall p v' p', transform_content_fields v p = Some (v', p') -> settled v'.

Definition entry_settled (kv : str * value) : Prop :=
  content_string (fst kv) (snd kv) = None /\ settled (snd kv).

End Rewriter.

Arguments transform_content_fields {base}.
Arguments dict_step {base}.
Arguments list_step {base}.
Arguments field_rewritten {base}.
Arguments item_rewritten {base}.
Arguments settles {base}.

(** ** Vocabulary of the properties of whole runs *)

(** The tags of the heading start tags among the handler calls, in
    order. *)
Fixpoint heading_tags (evs : list event) : list str :=
  match evs with
  | [] => []
  | Starttag tag _ :: evs' =>
      if str_in tag headings then tag :: heading_tags evs'
      else heading_tags evs'
  | _ :: evs' => heading_tags evs'
  end.

(** [a] is [b] with some elements left out, the order kept. *)
Fixpoint subseq (a b : list str) : bool :=
  match a, b with
  | [], _ => true
  | _ :: _, [] => false
  | x :: a', y :: b' => if str_eqb x y then subseq a' b' else subseq a b'
  end.

(** A start or end tag on which the handlers do nothing: neither a
    heading, nor a preserved tag, nor (for a start tag) [br]. *)
Definition structural (e : event) : bool :=
  match e with
  | Starttag tag _ =>
      negb (str_in tag headings) && negb (str_in tag preserve_tags)
      && negb (str_eqb tag (py "br"))
  | Endtag tag =>
      negb (str_in tag headings) && negb (str_in tag preserve_tags)
  | Data _ => false
  end.

(** [s] starts with a newline. *)
Definition starts_with_newline (s : str) : bool :=
  match s with c :: _ => N.eqb c nl | [] => false end.

(** No three newlines in a row. *)
Fixpoint no_triple_newline (s : str) : bool :=
  match s with
  | a :: r =>
      negb (N.eqb a nl
            && match r with
               | b :: c :: _ => N.eqb b nl && N.eqb c nl
               | _ => false
               end)
      && no_triple_newline r
  | [] => true
  end.

(** The strings of a section record are normalized: nothing to trim at
    either end, and no two spaces in a row in the description. *)
Definition section_normal (r : SectionRecord) : bool :=
  trimmed (section r) && trimmed (description r)
  && no_double_space (description r).

(** Two instances that differ at most in how the accumulated content is
    cut into parts. *)
Definition same_text {base : Type} (p q : ContentParser base) : Prop :=
  inherited p = inherited q
  /\ sections p = sections q
  /\ current_heading p = current_heading q
  /\ current_heading_type p = current_heading_type q
  /\ concat (current_content p) = concat (current_content q)
  /\ truthy (current_content p) = truthy (current_content q)
  /\ in_heading p = in_heading q
  /\ tag_stack p = tag_stack q.

(** What holds of an instance when the heading start tags met since the
    reset are [seen]: before the first one nothing is pending or emitted;
    after it a heading is open, and the types of the sections emitted so
    far, followed by the type of the open one, are among [seen] in their
    order. *)
Definition heading_inv {base : Type} (p : ContentParser base)
           (seen : list str) : Prop :=
  (current_heading p = None /\ current_heading_type p = None
   /\ sections p = [] /\ seen = [])
  \/ (exists h t,
        current_heading p = Some h /\ current_heading_type p = Some t
        /\ In t headings
        /\ subseq (map headingType (sections p) ++ [t]) seen = true).

(** A heading with its text and the text that follows it, as the
    handlers receive them: the start tag, the chunks of the heading text,
    the end tag, the chunks of the body. *)
Record block := mkBlock {
  block_tag : str;
  block_attrs : list (str * option str);
  block_heading : list str;
  block_body : list str
}.

Definition events_of_block (k : block) : list event :=
  Starttag (block_tag k) (block_attrs k)
  :: map Data (block_heading k)
  ++ Endtag (block_tag k) :: map Data (block_body k).

(** The section of a heading [tag] with the text [heading] and the
    content parts [body]: none when both are empty. *)
Definition heading_section (tag heading : str) (body : list str)
  : list SectionRecord :=
  if truthy heading || truthy body
  then [mkSection tag (strip heading) (clean_description body)]
  else [].

Definition section_of_block (k : block) : list SectionRecord :=
  heading_section (block_tag k) (concat (block_heading k)) (block_body k).

(** No string occurs twice in [l]. *)
Fixpoint nodupb (l : list str) : bool :=
  match l with
  | [] => true
  | x :: r => negb (str_in x r) && nodupb r
  end.

(** No dict in the value has a string under the key [content] (and the
    keys of each dict are distinct, as in every Python dict). *)
Fixpoint no_content_strings (obj : value) : bool :=
  match obj with
  | VDict fields =>
      nodupb (map fst fields)
      && forallb (fun kv =>
                    negb (is_some (content_string (fst kv) (snd kv)))
                    && no_content_strings (snd kv)) fields
  | VList items => forallb no_content_strings items
  | _ => true
  end.

(** The strings under [content] keys that the rewriter hands to
    [parse_content], in the order of the traversal. *)
Fixpoint content_strings (obj : value) : list str :=
  match obj with
  | VDict fields =>
      flat_map (fun kv =>
                  match content_string (fst kv) (snd kv) with
                  | Some s => [s]
                  | None => content_strings (snd kv)
                  end) fields
  | VList items => flat_map content_strings items
  | _ => []
  end.

(** The inherited tokenizer state after [parse_content] has been called
    on each string of [l] in turn: a blank string is not fed; [None] when
    one of the calls of [feed] raises. *)
Fixpoint feed_all {base : Type}
         (feed : base -> str -> option (list event * base))
         (b : base) (l : list str) : option base :=
  match l with
  | [] => Some b
  | s :: l' =>
      if blank s then feed_all feed b l'
      else match feed b s with
           | Some (_, b') => feed_all feed b' l'
           | None => None
           end
  end.

(** The inherited tokenizer state a call leaves; [None] when the call
    raises. *)
Definition tokenizer_after {A base : Type}
           (r : option (A * ContentParser base)) : option base :=
  match r with Some (_, p) => Some (inherited p) | None => None end.

(** The handler calls of a call of [feed]; none when it raises. *)
Definition fed_events {base : Type} (r : option (list event * base))
  : list event :=
  match r with Some (evs, _) => evs | None => [] end.

(** An attribute as [handle_starttag] writes it after the tag name: a
    space, the name, an equals sign and the value between double quotes,
    the value [None] of an attribute without value written out as the
    word None. *)
Definition rendered_attr (kv : str * option str) : str :=
  py " " ++ fst kv ++ py "="
  ++ q (match snd kv with Some v => v | None => py "None" end).

(** * Properties *)

(** ** Strings *)

Lemma str_eqb_eq (a b : str) : str_eqb a b = true <-> a = b.
Proof.
  revert b; induction a as [|x a IH]; destruct b as [|y b]; simpl;
    split; try congruence; try discriminate.
  - intros H. apply andb_true_iff in H as [H1 H2].
    apply N.eqb_eq in H1. apply IH in H2. congruence.
  - intros H. injection H as -> ->. rewrite N.eqb_refl. simpl.
    apply IH; reflexivity.
Qed.

Lemma str_eqb_refl (a : str) : str_eqb a a = true.
Proof. apply str_eqb_eq; reflexivity. Qed.

Lemma str_eqb_neq (a b : str) : a <> b -> str_eqb a b = false.
Proof.
  intros H. destruct (str_eqb a b) eqn:E; [|reflexivity].
  apply str_eqb_eq in E. contradiction.
Qed.

Lemma str_in_In (x : str) (l : list str) : str_in x l = true <-> In x l.
Proof.
  unfold str_in. rewrite existsb_exists. split.
  - intros [y [Hy E]]. apply str_eqb_eq in E. subst. exact Hy.
  - intros H. exists x. split; [exact H | apply str_eqb_refl].
Qed.

Lemma lstrip_all_space (s : str) : forallb isspace s = true -> lstrip s = [].
Proof.
  induction s as [|c s IH]; simpl; [reflexivity|].
  intros H. apply andb_true_iff in H as [Hc Hs]. rewrite Hc. auto.
Qed.

Lemma strip_all_space (s : str) : forallb isspace s = true -> strip s = [].
Proof.
  intros H. unfold strip, rstrip. rewrite (lstrip_all_space _ H). reflexivity.
Qed.

Lemma blank_all_space (s : str) : forallb isspace s = true -> blank s = true.
Proof.
  intros H. unfold blank. rewrite (strip_all_space _ H). simpl.
  apply orb_true_r.
Qed.

(** ** The handlers *)

Section HandlerFacts.

Variable base : Type.
Variable feed : base -> str -> option (list event * base).

Implicit Types (self p : ContentParser base).

(** Headings, preserved tags and [br] are told apart by name. *)
Lemma preserved_not_heading (tag : str) :
  In tag preserve_tags -> str_in tag headings = false.
Proof.
  intros H. unfold preserve_tags in H. simpl in H.
  repeat (destruct H as [<-|H]; [reflexivity|]). contradiction.
Qed.

Lemma heading_open_reset p : heading_open (reset_fields p).
Proof. unfold heading_open; simpl; discriminate. Qed.

Lemma heading_open_dispatch p e p' :
  heading_open p -> dispatch p e = Some p' -> heading_open p'.
Proof.
  unfold heading_open. intros Hp H. destruct e as [tag attrs|tag|data]; simpl in H.
  - injection H as <-. unfold handle_starttag.
    destruct (str_in tag headings); [simpl; discriminate|].
    destruct (str_in tag preserve_tags); [exact Hp|].
    destruct (str_eqb tag (py "br")); exact Hp.
  - injection H as <-. unfold handle_endtag.
    destruct (str_in tag headings); [simpl; discriminate|].
    destruct (str_in tag preserve_tags); [|exact Hp].
    destruct (top (tag_stack p)) as [t|]; [|exact Hp].
    destruct (str_eqb t tag); exact Hp.
  - unfold handle_data in H. destruct (in_heading p) eqn:E.
    + destruct (current_heading p); [|discriminate].
      injection H as <-. simpl. discriminate.
    + injection H as <-. simpl. discriminate.
Qed.

Lemma dispatch_total p e :
  heading_open p -> exists p', dispatch p e = Some p'.
Proof.
  intros Hp. destruct e as [tag attrs|tag|data]; simpl; eauto.
  unfold handle_data. destruct (in_heading p) eqn:E; eauto.
  destruct (current_heading p) eqn:Eh; eauto.
  exfalso. exact (Hp E Eh).
Qed.

Lemma run_events_total (evs : list event) : forall p,
  heading_open p -> exists p', run_events p evs = Some p'.
Proof.
  induction evs as [|e evs IH]; intros p Hp; simpl; eauto.
  destruct (dispatch_total p e Hp) as [p1 H1]. rewrite H1.
  apply IH. exact (heading_open_dispatch p e p1 Hp H1).
Qed.

(** [parse_content] raises exactly when [feed] does: no handler raises
    on the calls [feed] makes. *)
Lemma parse_content_raises_iff p (s : str) :
  parse_content feed p s = None
  <-> blank s = false /\ feed (inherited p) s = None.
Proof.
  unfold parse_content. destruct (blank s).
  - split; [discriminate|intros [H _]; discriminate].
  - change (inherited (reset_fields p)) with (inherited p).
    destruct (feed (inherited p) s) as [[evs b]|].
    + destruct (run_events_total evs _ (heading_open_reset p)) as [p1 H1].
      rewrite H1. split; [discriminate|intros [_ H]; discriminate].
    + split; [intros _; split; reflexivity|reflexivity].
Qed.

(** A blank argument returns an empty list before anything is assigned. *)
Lemma parse_content_blank_eq p (s : str) :
  blank s = true -> parse_content feed p s = Some ([], p).
Proof. intros H. unfold parse_content. rewrite H. reflexivity. Qed.

(** What a later call of [parse_content] returns depends on the earlier
    calls only through the inherited tokenizer state. *)
Lemma parse_content_fields_isolated p p' (s : str) :
  inherited p = inherited p' ->
  option_map fst (parse_content feed p s)
  = option_map fst (parse_content feed p' s).
Proof.
  intros H. unfold parse_content. destruct (blank s); [reflexivity|].
  unfold reset_fields. rewrite H. reflexivity.
Qed.

Lemma strip_nil : strip [] = [].
Proof. reflexivity. Qed.

Lemma save_section_sections p :
  sections (_save_section p)
  = if heading_truthy (current_heading p) || truthy (current_content p)
    then sections p ++ [pending_section p] else sections p.
Proof.
  unfold _save_section, pending_section. simpl.
  destruct (heading_truthy (current_heading p) || truthy (current_content p));
    [|reflexivity].
  destruct (current_heading p) as [[|c h]|]; reflexivity.
Qed.

Lemma save_last_sections p :
  sections (save_last p) = sections (_save_section p).
Proof.
  unfold save_last.
  destruct (is_some (current_heading p) || truthy (current_content p)) eqn:E;
    [reflexivity|].
  rewrite save_section_sections.
  apply orb_false_iff in E as [E1 E2]. rewrite E2.
  destruct (current_heading p); [discriminate|reflexivity].
Qed.

End HandlerFacts.

(** ** Empty input *)

(** C9: for every input string that is empty or consists only of
    whitespace, [parse_content] returns an empty list of sections (and
    leaves the instance as it was). *)
Theorem parse_content_blank {base : Type}
        (feed : base -> str -> option (list event * base))
        (self : ContentParser base) (s : str) :
  forallb isspace s = true ->
  parse_content feed self s = Some ([], self).
Proof.
  intros H. apply parse_content_blank_eq. apply blank_all_space. exact H.
Qed.

Lemma parse_content_blank_witness :
  forallb isspace (py "  " ++ [nl; 9%N; sp]) = true /\
  PyHTML.parse PyHTML.fresh (py "  " ++ [nl; 9%N; sp])
  = Some ([], PyHTML.fresh).
Proof.
  split; [reflexivity|].
  apply (parse_content_blank PyHTML.feed PyHTML.fresh). reflexivity.
Defined.

(** ** Preserved inline tags *)

Lemma truthy_app_r {A} (a b : list A) :
  truthy b = true -> truthy (a ++ b) = true.
Proof. destruct a; simpl; auto. Qed.

Lemma fmt_attr_truthy (kv : str * option str) : truthy (fmt_attr kv) = true.
Proof.
  unfold fmt_attr. apply truthy_app_r. reflexivity.
Qed.

Lemma join_fmt_attr_truthy (a : str * option str) attrs :
  truthy (join (py " ") (map fmt_attr (a :: attrs))) = true.
Proof.
  simpl. destruct (map fmt_attr attrs).
  - apply fmt_attr_truthy.
  - pose proof (fmt_attr_truthy a) as H.
    destruct (fmt_attr a); [discriminate|reflexivity].
Qed.

Lemma handle_starttag_preserved {base : Type} (self : ContentParser base)
      (tag : str) (attrs : list (str * option str)) :
  In tag preserve_tags ->
  handle_starttag self tag attrs
  = mkParser (inherited self) (sections self) (current_heading self)
      (current_heading_type self)
      (current_content self ++
       [match attrs with
        | [] => py "<" ++ tag ++ py ">"
        | _ => py "<" ++ tag ++ py " "
               ++ join (py " ") (map fmt_attr attrs) ++ py ">"
        end])
      (in_heading self) (tag_stack self ++ [tag]).
Proof.
  intros H. unfold handle_starttag.
  rewrite (preserved_not_heading tag H).
  apply str_in_In in H. rewrite H.
  destruct attrs as [|a attrs]; [reflexivity|].
  rewrite join_fmt_attr_truthy. reflexivity.
Qed.

Lemma top_snoc (l : list str) (t : str) : top (l ++ [t]) = Some t.
Proof. unfold top. rewrite rev_app_distr. reflexivity. Qed.

Lemma handle_endtag_preserved {base : Type} (self : ContentParser base)
      (tag : str) :
  In tag preserve_tags ->
  handle_endtag self tag
  = match top (tag_stack self) with
    | Some t =>
        if str_eqb t tag then
          mkParser (inherited self) (sections self) (current_heading self)
                   (current_heading_type self)
                   (current_content self ++ [py "</" ++ tag ++ py ">"])
                   (in_heading self) (removelast (tag_stack self))
        else self
    | None => self
    end.
Proof.
  intros H. unfold handle_endtag.
  rewrite (preserved_not_heading tag H).
  apply str_in_In in H. rewrite H. reflexivity.
Qed.

Lemma rendered_attrs_join (a : str * option str)
      (attrs : list (str * option str)) :
  py " " ++ join (py " ") (map fmt_attr (a :: attrs))
  = concat (map rendered_attr (a :: attrs)).
Proof.
  revert a. induction attrs as [|b attrs IH]; intros a.
  - cbn [map join concat]. rewrite app_nil_r. reflexivity.
  - change (join (py " ") (map fmt_attr (a :: b :: attrs)))
      with (fmt_attr a ++ py " " ++ join (py " ") (map fmt_attr (b :: attrs))).
    rewrite (IH b).
    change (concat (map rendered_attr (a :: b :: attrs)))
      with (rendered_attr a ++ concat (map rendered_attr (b :: attrs))).
    change (rendered_attr a) with (py " " ++ fmt_attr a).
    rewrite <- app_assoc. reflexivity.
Qed.

(** C7, as the code has it: for a preserved inline tag, the start tag is
    written into the content as the tag name and the attributes that the
    tokenizer hands over, not as the markup has them: an opening angle
    bracket, the name, then for every attribute one space, the attribute
    name, an equals sign and the value between double quotes (the word
    None for an attribute without value), then a closing angle bracket;
    and the tag is pushed on the stack.  So [<a href="u" title="t">]
    is written with exactly one space before each attribute.  The end tag
    writes [</tag>] and pops the stack when the tag is on top of it, and
    does nothing at all otherwise; [<p>Hello <b>world</b>!</p>] gives the
    one section (p, empty, [Hello <b>world</b>!]). *)
Theorem preserved_tags_serialized {base : Type} (self : ContentParser base)
        (tag : str) :
  In tag preserve_tags ->
  handle_starttag self tag []
  = mkParser (inherited self) (sections self) (current_heading self)
      (current_heading_type self)
      (current_content self ++ [py "<" ++ tag ++ py ">"])
      (in_heading self) (tag_stack self ++ [tag])
  /\ (forall attrs,
        handle_starttag self tag attrs
        = mkParser (inherited self) (sections self) (current_heading self)
            (current_heading_type self)
            (current_content self ++
             [py "<" ++ tag ++ concat (map rendered_attr attrs) ++ py ">"])
            (in_heading self) (tag_stack self ++ [tag]))
  /\ current_content
       (handle_starttag self tag
          [(py "href", Some (py "u")); (py "title", Some (py "t"))])
     = current_content self
       ++ [py "<" ++ tag ++ py " href=" ++ q (py "u")
           ++ py " title=" ++ q (py "t") ++ py ">"]
  /\ (forall stack,
        tag_stack self = stack ++ [tag] ->
        handle_endtag self tag
        = mkParser (inherited self) (sections self) (current_heading self)
            (current_heading_type self)
            (current_content self ++ [py "</" ++ tag ++ py ">"])
            (in_heading self) stack)
  /\ (top (tag_stack self) <> Some tag -> handle_endtag self tag = self)
  /\ option_map fst
       (PyHTML.parse PyHTML.fresh (py "<p>Hello <b>world</b>!</p>"))
     = Some [mkSection (py "p") [] (py "Hello <b>world</b>!")].
Proof.
  intros H.
  assert (Hs : forall attrs,
             handle_starttag self tag attrs
             = mkParser (inherited self) (sections self)
                 (current_heading self) (current_heading_type self)
                 (current_content self ++
                  [py "<" ++ tag ++ concat (map rendered_attr attrs)
                   ++ py ">"])
                 (in_heading self) (tag_stack self ++ [tag])).
  { intros attrs. rewrite (handle_starttag_preserved self tag attrs H).
    destruct attrs as [|a attrs]; [reflexivity|].
    rewrite <- (rendered_attrs_join a attrs).
    reflexivity. }
  split; [|split; [|split; [|split; [|split]]]].
  - apply (Hs []).
  - exact Hs.
  - rewrite Hs. reflexivity.
  - intros stack E. rewrite (handle_endtag_preserved self tag H).
    rewrite E, top_snoc, str_eqb_refl, removelast_last. reflexivity.
  - intros E. rewrite (handle_endtag_preserved self tag H).
    destruct (top (tag_stack self)) as [t|]; [|reflexivity].
    destruct (str_eqb t tag) eqn:Et; [|reflexivity].
    apply str_eqb_eq in Et. subst. contradiction.
  - vm_compute. reflexivity.
Qed.

Lemma preserved_tags_serialized_witness :
  In (py "a") preserve_tags /\
  handle_starttag PyHTML.fresh (py "a")
    [(py "href", Some (py "u")); (py "download", None);
     (py "title", Some (py "t"))]
  = mkParser PyHTML.base_init [] None None
      [py "<a href=" ++ q (py "u") ++ py " download=" ++ q (py "None")
       ++ py " title=" ++ q (py "t") ++ py ">"]
      false [py "a"] /\
  current_content
    (handle_endtag (handle_starttag PyHTML.fresh (py "a") []) (py "a"))
  = [py "<a>"; py "</a>"] /\
  handle_endtag PyHTML.fresh (py "a") = PyHTML.fresh.
Proof.
  assert (Ha : In (py "a") preserve_tags)
    by (right; right; right; right; left; reflexivity).
  split; [exact Ha|].
  destruct (preserved_tags_serialized PyHTML.fresh (py "a") Ha)
    as (H1 & H2 & _ & _ & H5 & _).
  destruct (preserved_tags_serialized
              (handle_starttag PyHTML.fresh (py "a") []) (py "a") Ha)
    as (_ & _ & _ & H4 & _ & _).
  split; [rewrite H2; reflexivity|]. split.
  - rewrite (H4 []); [reflexivity | rewrite H1; reflexivity].
  - apply H5. discriminate.
Defined.

(** C7 as stated fails: the start tag of a preserved inline tag is not
    written as the markup has it.  [<B>] is written [<b>], [<b >] is
    written [<b>], [<A HREF="u">] is written [<a href="u">], and
    [<a download>] is written [<a download="None">]. *)
Lemma preserved_tag_not_verbatim :
  option_map fst (PyHTML.parse PyHTML.fresh (py "<B>x</B>"))
  = Some [mkSection (py "p") [] (py "<b>x</b>")]
  /\ py "<b>x</b>" <> py "<B>x</B>"
  /\ option_map fst (PyHTML.parse PyHTML.fresh (py "<b >x</b>"))
     = Some [mkSection (py "p") [] (py "<b>x</b>")]
  /\ option_map fst
       (PyHTML.parse PyHTML.fresh
          (py "<A HREF=" ++ q (py "u") ++ py ">x</A>"))
     = Some [mkSection (py "p") []
               (py "<a href=" ++ q (py "u") ++ py ">x</a>")]
  /\ option_map fst (PyHTML.parse PyHTML.fresh (py "<a download>x</a>"))
     = Some [mkSection (py "p") []
               (py "<a download=" ++ q (py "None") ++ py ">x</a>")].
Proof.
  split; [vm_compute; reflexivity|].
  split; [vm_compute; discriminate|].
  repeat split; vm_compute; reflexivity.
Qed.

(** C10: on a preserved inline start tag, an attribute without a value
    arrives with the value [None] and is written as [name="None"],
    wherever it stands among the attributes; so [<a download>] becomes
    [<a download="None">]. *)
Theorem valueless_attribute_serialized_as_None {base : Type}
        (self : ContentParser base) (tag k : str)
        (before after : list (str * option str)) :
  In tag preserve_tags ->
  fmt_attr (k, None) = k ++ py "=" ++ q (py "None")
  /\ current_content (handle_starttag self tag (before ++ (k, None) :: after))
     = current_content self
       ++ [py "<" ++ tag ++ py " "
           ++ join (py " ")
                (map fmt_attr before
                 ++ (k ++ py "=" ++ q (py "None")) :: map fmt_attr after)
           ++ py ">"]
  /\ PyHTML.feed PyHTML.base_init (py "<a download>")
     = Some ([Starttag (py "a") [(py "download", None)]], [])
  /\ option_map fst (PyHTML.parse PyHTML.fresh (py "<a download>"))
     = Some [mkSection (py "p") []
               (py "<a download=" ++ q (py "None") ++ py ">")].
Proof.
  intros H.
  assert (E : fmt_attr (k, None) = k ++ py "=" ++ q (py "None")).
  { unfold fmt_attr, q. cbn [fst snd app]. reflexivity. }
  split; [exact E|]. split; [|split; vm_compute; reflexivity].
  rewrite (handle_starttag_preserved self tag _ H).
  cbn [current_content]. rewrite map_app. cbn [map]. rewrite E.
  destruct before; reflexivity.
Qed.

Lemma valueless_attribute_serialized_as_None_witness :
  In (py "a") preserve_tags /\
  current_content
    (handle_starttag PyHTML.fresh (py "a")
       [(py "href", Some (py "u")); (py "download", None)])
  = [py "<a href=" ++ q (py "u") ++ py " download=" ++ q (py "None")
     ++ py ">"].
Proof.
  assert (Ha : In (py "a") preserve_tags)
    by (right; right; right; right; left; reflexivity).
  split; [exact Ha|].
  destruct (valueless_attribute_serialized_as_None
              PyHTML.fresh (py "a") (py "download")
              [(py "href", Some (py "u"))] [] Ha) as (_ & H & _).
  cbn [app] in H. rewrite H. reflexivity.
Defined.

(** ** When [parse_content] raises *)

(** C8, as the code has it: [parse_content] raises exactly when the
    tokenizer ([HTMLParser.feed], which [parse_content] calls without
    catching anything) raises on the markup; the handlers of
    [ContentParser] raise on no sequence of calls.  A start or end tag
    that is neither a heading, a preserved tag nor [br] changes nothing,
    and text always goes to the buffer that is active. *)
Theorem parse_content_raises_only_from_feed {base : Type}
        (feed : base -> str -> option (list event * base))
        (self : ContentParser base) (s : str) :
  (parse_content feed self s = None
   <-> blank s = false /\ feed (inherited self) s = None)
  /\ (forall evs, exists p', run_events (reset_fields self) evs = Some p')
  /\ (forall (p : ContentParser base) tag attrs,
        str_in tag headings = false ->
        str_in tag preserve_tags = false ->
        tag <> py "br" ->
        handle_starttag p tag attrs = p /\ handle_endtag p tag = p)
  /\ (forall (p : ContentParser base) data,
        in_heading p = false ->
        handle_data p data
        = Some (mkParser (inherited p) (sections p) (current_heading p)
                  (current_heading_type p) (current_content p ++ [data])
                  false (tag_stack p)))
  /\ (forall (p : ContentParser base) h data,
        in_heading p = true -> current_heading p = Some h ->
        handle_data p data
        = Some (mkParser (inherited p) (sections p) (Some (h ++ data))
                  (current_heading_type p) (current_content p)
                  true (tag_stack p))).
Proof.
  split; [apply parse_content_raises_iff|].
  split; [intros evs; apply run_events_total; apply heading_open_reset|].
  split; [|split].
  - intros p tag attrs Hh Hp Hb. unfold handle_starttag, handle_endtag.
    rewrite Hh, Hp, (str_eqb_neq _ _ Hb). split; reflexivity.
  - intros p data H. unfold handle_data. rewrite H. reflexivity.
  - intros p h data H E. unfold handle_data. rewrite H, E. reflexivity.
Qed.

Lemma parse_content_raises_only_from_feed_witness :
  PyHTML.parse PyHTML.fresh (py "<div><foo>text</h1><b>unclosed") <> None
  /\ handle_starttag PyHTML.fresh (py "div") [] = PyHTML.fresh
  /\ handle_endtag PyHTML.fresh (py "div") = PyHTML.fresh
  /\ exists p',
       handle_data (handle_starttag PyHTML.fresh (py "h1") []) (py "x")
       = Some p' /\ current_heading p' = Some (py "x").
Proof.
  destruct (parse_content_raises_only_from_feed PyHTML.feed PyHTML.fresh
              (py "<div><foo>text</h1><b>unclosed"))
    as (H1 & _ & H3 & _ & H5).
  split; [|split; [|split]].
  - intros E. apply H1 in E. destruct E as [_ E]. discriminate E.
  - apply (H3 PyHTML.fresh (py "div") []);
      [reflexivity | reflexivity | discriminate].
  - apply (H3 PyHTML.fresh (py "div") []);
      [reflexivity | reflexivity | discriminate].
  - eexists. split.
    + apply (H5 (handle_starttag PyHTML.fresh (py "h1") []) [] (py "x"));
        reflexivity.
    + reflexivity.
Defined.

(** C8 as stated fails: on a marked section with an unknown keyword the
    tokenizer of CPython 3.11 raises [AssertionError], and so does
    [parse_content]. *)
Lemma parse_content_raises_on_marked_section :
  blank (py "<![x]>") = false
  /\ PyHTML.tokenize (py "<![x]>") = PyHTML.Raises
  /\ PyHTML.parse PyHTML.fresh (py "<![x]>") = None
  /\ PyHTML.tokenize (py "text<![x]>") = PyHTML.Raises
  /\ PyHTML.parse PyHTML.fresh (py "text<![x]>") = None.
Proof. repeat split; vm_compute; reflexivity. Qed.

(** ** When a section is emitted *)

Lemma handle_endtag_sections {base : Type} (p : ContentParser base)
      (tag : str) :
  sections (handle_endtag p tag) = sections p.
Proof.
  unfold handle_endtag. destruct (str_in tag headings); [reflexivity|].
  destruct (str_in tag preserve_tags); [|reflexivity].
  destruct (top (tag_stack p)) as [t|]; [|reflexivity].
  destruct (str_eqb t tag); reflexivity.
Qed.

Lemma handle_data_sections {base : Type} (p p' : ContentParser base)
      (data : str) :
  handle_data p data = Some p' -> sections p' = sections p.
Proof.
  unfold handle_data. destruct (in_heading p).
  - destruct (current_heading p); [|discriminate].
    intros H; injection H as <-; reflexivity.
  - intros H; injection H as <-; reflexivity.
Qed.

Lemma handle_starttag_sections {base : Type} (p : ContentParser base)
      tag attrs :
  sections (handle_starttag p tag attrs)
  = if str_in tag headings && is_some (current_heading p)
    then sections (_save_section p) else sections p.
Proof.
  unfold handle_starttag. destruct (str_in tag headings).
  - destruct (is_some (current_heading p)); reflexivity.
  - destruct (str_in tag preserve_tags); [reflexivity|].
    destruct (str_eqb tag (py "br")); reflexivity.
Qed.

(** Sections are only ever appended: what has been emitted is neither
    reordered nor removed, so the output follows the order in which the
    headings were met. *)
Lemma dispatch_sections_prefix {base : Type} (p p' : ContentParser base)
      (e : event) :
  dispatch p e = Some p' -> exists l, sections p' = sections p ++ l.
Proof.
  destruct e as [tag attrs|tag|data]; cbn [dispatch]; intros H.
  - injection H as <-. rewrite handle_starttag_sections.
    destruct (str_in tag headings && is_some (current_heading p)).
    + rewrite save_section_sections.
      destruct (heading_truthy (current_heading p)
                || truthy (current_content p)).
      * eexists; reflexivity.
      * exists []. rewrite app_nil_r. reflexivity.
    + exists []. rewrite app_nil_r. reflexivity.
  - injection H as <-. rewrite handle_endtag_sections.
    exists []. rewrite app_nil_r. reflexivity.
  - rewrite (handle_data_sections p p' data H).
    exists []. rewrite app_nil_r. reflexivity.
Qed.

Lemma run_events_sections_prefix {base : Type} (evs : list event) :
  forall p p' : ContentParser base,
    run_events p evs = Some p' -> exists l, sections p' = sections p ++ l.
Proof.
  induction evs as [|e evs IH]; intros p p' H; cbn [run_events] in H.
  - injection H as <-. exists []. rewrite app_nil_r. reflexivity.
  - destruct (dispatch p e) as [p1|] eqn:E; [|discriminate].
    destruct (dispatch_sections_prefix p p1 e E) as [l1 E1].
    destruct (IH p1 p' H) as [l2 E2].
    exists (l1 ++ l2). rewrite E2, E1, app_assoc. reflexivity.
Qed.

(** C2, as the code has it: a section is emitted exactly when the heading
    text as accumulated (before trimming) is non-empty or at least one
    content part has been accumulated; otherwise it is dropped.  This is
    the rule at a heading start tag and at the end of the pass alike, and
    nothing else emits a section. *)
Theorem section_emitted_iff_heading_or_content {base : Type}
        (p : ContentParser base) :
  sections (_save_section p)
  = (if heading_truthy (current_heading p) || truthy (current_content p)
     then sections p ++ [pending_section p] else sections p)
  /\ sections (save_last p) = sections (_save_section p)
  /\ (forall tag attrs,
        sections (handle_starttag p tag attrs)
        = if str_in tag headings && is_some (current_heading p)
          then sections (_save_section p) else sections p)
  /\ (forall tag, sections (handle_endtag p tag) = sections p)
  /\ (forall data p', handle_data p data = Some p' -> sections p' = sections p).
Proof.
  split; [apply save_section_sections|].
  split; [apply save_last_sections|].
  split; [apply handle_starttag_sections|].
  split; [apply handle_endtag_sections|].
  intros data p'. apply handle_data_sections.
Qed.

Lemma section_emitted_iff_heading_or_content_witness :
  sections (handle_starttag
              (mkParser PyHTML.base_init [] (Some (py "T")) (Some (py "h1"))
                        [py "body"] false [])
              (py "h2") [])
  = [mkSection (py "h1") (py "T") (py "body")]
  /\ sections (save_last (mkParser PyHTML.base_init [] (Some [])
                                   (Some (py "h1")) [] true []))
     = []
  /\ exists p',
       handle_data PyHTML.fresh (py "x") = Some p' /\ sections p' = [].
Proof.
  split; [|split].
  - destruct (section_emitted_iff_heading_or_content
                (mkParser PyHTML.base_init [] (Some (py "T")) (Some (py "h1"))
                          [py "body"] false [])) as (_ & _ & H3 & _).
    rewrite H3. vm_compute. reflexivity.
  - destruct (section_emitted_iff_heading_or_content
                (mkParser PyHTML.base_init [] (Some []) (Some (py "h1"))
                          [] true [])) as (H1 & H2 & _).
    rewrite H2, H1. reflexivity.
  - destruct (section_emitted_iff_heading_or_content PyHTML.fresh)
      as (_ & _ & _ & _ & H5).
    eexists. split; [reflexivity|].
    apply (H5 (py "x")). reflexivity.
Defined.

(** C2 as stated fails: a heading of white space only, with no content,
    trims to the empty string and is emitted all the same. *)
Lemma whitespace_heading_emitted :
  exists p : ContentParser PyHTML.base,
    run_events (reset_fields PyHTML.fresh)
               [Starttag (py "h1") []; Data [sp]; Endtag (py "h1")] = Some p
    /\ option_map strip (current_heading p) = Some []
    /\ current_content p = []
    /\ sections (save_last p) = [mkSection (py "h1") [] []]
    /\ option_map fst (PyHTML.parse PyHTML.fresh (py "<h1> </h1>"))
       = Some [mkSection (py "h1") [] []].
Proof.
  eexists. split; [vm_compute; reflexivity|].
  repeat split; vm_compute; reflexivity.
Qed.

(** ** Content before the first heading *)

(** A heading start tag finalizes the section in progress only when a
    heading is open ([current_heading is not None]); content accumulated
    without a heading stays in [current_content]. *)
Lemma heading_start_keeps_unheaded_content {base : Type}
      (p : ContentParser base) (tag : str) attrs :
  In tag headings -> current_heading p = None ->
  handle_starttag p tag attrs
  = mkParser (inherited p) (sections p) (Some []) (Some tag)
             (current_content p) true (tag_stack p).
Proof.
  intros H E. unfold handle_starttag. apply str_in_In in H.
  rewrite H, E. reflexivity.
Qed.

(** C1 at [intro<h1>A</h1>body]: the text before the first heading is not
    returned as a section of its own (type p, empty heading); it is joined
    to the content of the first heading's section. *)
Theorem pre_heading_content_merged :
  PyHTML.feed PyHTML.base_init (py "intro<h1>A</h1>body")
  = Some ([Data (py "intro"); Starttag (py "h1") []; Data (py "A");
           Endtag (py "h1"); Data (py "body")], [])
  /\ option_map fst (PyHTML.parse PyHTML.fresh (py "intro<h1>A</h1>body"))
     = Some [mkSection (py "h1") (py "A") (py "introbody")]
  /\ option_map fst (PyHTML.parse PyHTML.fresh (py "intro<h1>A</h1>body"))
     <> Some [mkSection (py "p") [] (py "intro");
              mkSection (py "h1") (py "A") (py "body")].
Proof.
  split; [vm_compute; reflexivity|].
  split; [vm_compute; reflexivity|].
  vm_compute. discriminate.
Qed.

(** ** Reuse of one instance *)

(** C3 at [x<b] followed by [>y]: the first call leaves the unfinished
    tag in the tokenizer's buffer, which [parse_content] does not reset,
    and the second call on the same instance parses it together with its
    own argument; a fresh instance returns something else. *)
Theorem reused_parser_sees_buffered_markup :
  exists p1 : ContentParser PyHTML.base,
    PyHTML.parse PyHTML.fresh (py "x<b")
    = Some ([mkSection (py "p") [] (py "x")], p1)
    /\ inherited p1 = py "<b"
    /\ option_map fst (PyHTML.parse p1 (py ">y"))
       = Some [mkSection (py "p") [] (py "<b>y")]
    /\ option_map fst (PyHTML.parse PyHTML.fresh (py ">y"))
       = Some [mkSection (py "p") [] (py ">y")].
Proof.
  eexists. split; [vm_compute; reflexivity|].
  repeat split; vm_compute; reflexivity.
Qed.

(** ** The field rewriter *)

Lemma dict_set_fresh (d : list (str * value)) (k : str) (v : value) :
  ~ In k (map fst d) -> dict_set d k v = d ++ [(k, v)].
Proof.
  induction d as [|[k' v'] d IH]; simpl; intros H; [reflexivity|].
  rewrite str_eqb_neq by (intros ->; apply H; left; reflexivity).
  rewrite IH by (intros Hin; apply H; right; exact Hin). reflexivity.
Qed.

Lemma dict_set_keys_in (d : list (str * value)) (k : str) (v : value) x :
  In x (map fst (dict_set d k v)) <-> x = k \/ In x (map fst d).
Proof.
  induction d as [|[k' v'] d IH]; simpl.
  - intuition congruence.
  - destruct (str_eqb k' k) eqn:E; simpl.
    + apply str_eqb_eq in E. subst. intuition.
    + rewrite IH. intuition.
Qed.

Lemma dict_set_NoDup (d : list (str * value)) (k : str) (v : value) :
  NoDup (map fst d) -> NoDup (map fst (dict_set d k v)).
Proof.
  induction d as [|[k' v'] d IH]; simpl; intros H.
  - constructor; [intros []|constructor].
  - inversion H as [|? ? Hn Hd]; subst.
    destruct (str_eqb k' k) eqn:E; simpl.
    + constructor; assumption.
    + constructor; [|apply IH; exact Hd].
      rewrite dict_set_keys_in. intros [->|Hin]; [|contradiction].
      rewrite str_eqb_refl in E. discriminate.
Qed.

Lemma dict_set_Forall (Q : str * value -> Prop) d k v :
  Forall Q d -> Q (k, v) -> Forall Q (dict_set d k v).
Proof.
  intros Hd Hq. induction d as [|[k' v'] d IH]; simpl.
  - constructor; [exact Hq|constructor].
  - inversion Hd; subst. destruct (str_eqb k' k) eqn:E.
    + apply str_eqb_eq in E. subst. constructor; assumption.
    + constructor; [assumption|apply IH; assumption].
Qed.

Lemma section_value_settled (r : SectionRecord) : settled (section_value r).
Proof.
  apply settled_dict.
  - simpl. repeat constructor; simpl; intuition discriminate.
  - repeat constructor.
Qed.

Lemma sections_value_settled (l : list SectionRecord) :
  settled (sections_value l).
Proof.
  apply settled_list. apply Forall_forall. intros x Hx.
  apply in_map_iff in Hx as [r [<- _]]. apply section_value_settled.
Qed.

Section RewriterFacts.

Variable base : Type.
Variable feed : base -> str -> option (list event * base).

Local Abbreviation T := (transform_content_fields feed).

Lemma transform_dict fields p :
  T (VDict fields) p
  = match fold_left (dict_step feed) fields (Some ([], p)) with
    | Some (new_obj, p') => Some (VDict new_obj, p')
    | None => None
    end.
Proof. reflexivity. Qed.

Lemma transform_list items p :
  T (VList items) p
  = match fold_left (list_step feed) items (Some ([], p)) with
    | Some (out, p') => Some (VList out, p')
    | None => None
    end.
Proof. reflexivity. Qed.

Lemma list_fold_None items : fold_left (list_step feed) items None = None.
Proof. induction items; simpl; auto. Qed.

Lemma dict_fold_None fields : fold_left (dict_step feed) fields None = None.
Proof. induction fields; simpl; auto. Qed.

Lemma list_fold_frame items : forall out p out1 p',
  fold_left (list_step feed) items (Some (out, p)) = Some (out1, p') ->
  exists out',
    out1 = out ++ out' /\ Forall2 (item_rewritten feed) items out'.
Proof.
  induction items as [|x items IH]; intros out p out1 p' H;
    cbn [fold_left] in H.
  - injection H as <- _. exists []. rewrite app_nil_r.
    split; [reflexivity|constructor].
  - unfold list_step at 2 in H.
    destruct (T x p) as [[v1 p1]|] eqn:E;
      [|rewrite list_fold_None in H; discriminate].
    destruct (IH _ _ _ _ H) as (out' & -> & HF).
    exists (v1 :: out'). rewrite <- app_assoc. split; [reflexivity|].
    constructor; [exists p, p1; exact E|exact HF].
Qed.

Lemma dict_fold_frame fields : forall new_obj p out1 p',
  NoDup (map fst new_obj ++ map fst fields) ->
  fold_left (dict_step feed) fields (Some (new_obj, p)) = Some (out1, p') ->
  exists out',
    out1 = new_obj ++ out' /\ Forall2 (field_rewritten feed) fields out'.
Proof.
  induction fields as [|kv fields IH]; intros new_obj p out1 p' Hnd H;
    cbn [fold_left] in H.
  - injection H as <- _. exists []. rewrite app_nil_r.
    split; [reflexivity|constructor].
  - assert (Hfresh : ~ In (fst kv) (map fst new_obj)).
    { intros Hin. cbn [map] in Hnd. apply NoDup_remove_2 in Hnd. apply Hnd.
      apply in_or_app. left. exact Hin. }
    assert (Hnd' : forall v, NoDup (map fst (new_obj ++ [(fst kv, v)])
                                    ++ map fst fields)).
    { intros v. rewrite map_app, <- app_assoc. exact Hnd. }
    unfold dict_step at 2 in H.
    destruct (content_string (fst kv) (snd kv)) as [s|] eqn:Ec.
    + destruct (parse_content feed p s) as [[secs p1]|] eqn:Ep;
        [|rewrite dict_fold_None in H; discriminate].
      rewrite (dict_set_fresh _ _ _ Hfresh) in H.
      destruct (IH _ _ _ _ (Hnd' _) H) as (out' & -> & HF).
      exists ((fst kv, sections_value secs) :: out').
      rewrite <- app_assoc. split; [reflexivity|].
      constructor; [|exact HF]. unfold field_rewritten. cbn [fst snd].
      rewrite Ec. split; [reflexivity|].
      exists p, secs, p1. split; [exact Ep|reflexivity].
    + destruct (T (snd kv) p) as [[v1 p1]|] eqn:Ev;
        [|rewrite dict_fold_None in H; discriminate].
      rewrite (dict_set_fresh _ _ _ Hfresh) in H.
      destruct (IH _ _ _ _ (Hnd' _) H) as (out' & -> & HF).
      exists ((fst kv, v1) :: out').
      rewrite <- app_assoc. split; [reflexivity|].
      constructor; [|exact HF]. unfold field_rewritten. cbn [fst snd].
      rewrite Ec. split; [reflexivity|]. exists p, p1. exact Ev.
Qed.

(** The rewriter keeps the kind of a value, so it never puts a string
    under [content] where there was none. *)
Lemma transform_keeps_non_string k v p v' p' :
  content_string k v = None -> T v p = Some (v', p') ->
  content_string k v' = None.
Proof.
  unfold content_string. destruct (str_eqb k (py "content")); [|reflexivity].
  destruct v; try discriminate; intros _ E;
    try (cbn in E; injection E as <- <-; reflexivity).
  - rewrite transform_list in E.
    destruct (fold_left (list_step feed) items (Some ([], p))) as [[out p1]|];
      [injection E as <- <-; reflexivity | discriminate].
  - rewrite transform_dict in E.
    destruct (fold_left (dict_step feed) fields (Some ([], p))) as [[out p1]|];
      [injection E as <- <-; reflexivity | discriminate].
Qed.

Lemma list_fold_fixed items :
  Forall (fun x => forall p, T x p = Some (x, p)) items ->
  forall out p,
    fold_left (list_step feed) items (Some (out, p)) = Some (out ++ items, p).
Proof.
  induction 1 as [|x items Hx _ IH]; intros out p; cbn [fold_left].
  - rewrite app_nil_r. reflexivity.
  - unfold list_step at 2. rewrite Hx, IH, <- app_assoc. reflexivity.
Qed.

Lemma dict_fold_fixed fields :
  Forall (fun kv => content_string (fst kv) (snd kv) = None
                    /\ forall p, T (snd kv) p = Some (snd kv, p)) fields ->
  forall new_obj p,
    NoDup (map fst new_obj ++ map fst fields) ->
    fold_left (dict_step feed) fields (Some (new_obj, p))
    = Some (new_obj ++ fields, p).
Proof.
  induction 1 as [|[k v] fields [Hc Hx] _ IH]; intros new_obj p Hnd;
    cbn [fold_left].
  - rewrite app_nil_r. reflexivity.
  - unfold dict_step at 2. cbn [fst snd] in *. rewrite Hc, Hx.
    rewrite dict_set_fresh.
    2:{ intros Hin. cbn [map] in Hnd. apply NoDup_remove_2 in Hnd.
        apply Hnd. apply in_or_app. left. exact Hin. }
    rewrite IH.
    + rewrite <- app_assoc. reflexivity.
    + rewrite map_app, <- app_assoc. exact Hnd.
Qed.

Lemma settled_fixed (v : value) :
  settled v -> forall p, T v p = Some (v, p).
Proof.
  induction v using value_ind; intros Hs p; try reflexivity.
  - inversion Hs as [ | | | | items' HF | ]; subst.
    rewrite transform_list, list_fold_fixed; [reflexivity|].
    rewrite Forall_forall in *. intros x Hx. apply (H x Hx). apply (HF x Hx).
  - inversion Hs as [ | | | | | fields' Hnd HF ]; subst.
    rewrite transform_dict, dict_fold_fixed; [reflexivity| |exact Hnd].
    rewrite Forall_forall in *. intros kv Hkv.
    destruct (HF kv Hkv) as [Hc Hv]. split; [exact Hc|].
    apply (H kv Hkv). exact Hv.
Qed.

Lemma list_fold_settled items :
  Forall (settles feed) items ->
  forall out p out' p',
    Forall settled out ->
    fold_left (list_step feed) items (Some (out, p)) = Some (out', p') ->
    Forall settled out'.
Proof.
  induction 1 as [|x items Hx _ IH]; intros out p out' p' Ho E;
    cbn [fold_left] in E.
  - injection E as <- <-. exact Ho.
  - unfold list_step at 2 in E.
    destruct (T x p) as [[v1 p1]|] eqn:Ex.
    + refine (IH _ _ _ _ _ E). apply Forall_app. split; [exact Ho|].
      constructor; [exact (Hx _ _ _ Ex)|constructor].
    + rewrite list_fold_None in E. discriminate.
Qed.

Lemma dict_fold_settled fields :
  Forall (fun kv => settles feed (snd kv)) fields ->
  forall new_obj p out p',
    NoDup (map fst new_obj) -> Forall entry_settled new_obj ->
    fold_left (dict_step feed) fields (Some (new_obj, p)) = Some (out, p') ->
    NoDup (map fst out) /\ Forall entry_settled out.
Proof.
  induction 1 as [|[k v] fields Hx _ IH]; intros new_obj p out p' Hnd Ho E;
    cbn [fold_left] in E.
  - injection E as <- <-. split; assumption.
  - unfold dict_step at 2 in E. cbn [fst snd] in *.
    destruct (content_string k v) as [s|] eqn:Ec.
    + destruct (parse_content feed p s) as [[secs p1]|].
      * apply (IH _ _ _ _ (dict_set_NoDup _ k _ Hnd)) in E; [exact E|].
        apply dict_set_Forall; [exact Ho|].
        split; [|apply sections_value_settled].
        unfold content_string, sections_value. cbn [fst snd].
        destruct (str_eqb k (py "content")); reflexivity.
      * rewrite dict_fold_None in E. discriminate.
    + destruct (T v p) as [[v1 p1]|] eqn:Ev.
      * apply (IH _ _ _ _ (dict_set_NoDup _ k _ Hnd)) in E; [exact E|].
        apply dict_set_Forall; [exact Ho|].
        split; [exact (transform_keeps_non_string k v p v1 p1 Ec Ev)|].
        exact (Hx _ _ _ Ev).
      * rewrite dict_fold_None in E. discriminate.
Qed.

Lemma transform_settles (v : value) : settles feed v.
Proof.
  induction v using value_ind; intros p v' p' E;
    try (cbn in E; injection E as <- <-; constructor; fail).
  - rewrite transform_list in E.
    destruct (fold_left (list_step feed) items (Some ([], p))) as [[out p1]|] eqn:Ef;
      [|discriminate].
    injection E as <- <-. constructor.
    exact (list_fold_settled items H [] p out p1 (Forall_nil _) Ef).
  - rewrite transform_dict in E.
    destruct (fold_left (dict_step feed) fields (Some ([], p))) as [[out p1]|] eqn:Ef;
      [|discriminate].
    injection E as <- <-.
    destruct (dict_fold_settled fields H [] p out p1 (NoDup_nil _) (Forall_nil _) Ef)
      as [Hnd HF].
    constructor; assumption.
Qed.

Lemma field_rewritten_keys fields out :
  Forall2 (field_rewritten feed) fields out -> map fst out = map fst fields.
Proof.
  induction 1 as [|kv kv' fields out [Hk _] _ IH]; simpl; congruence.
Qed.

End RewriterFacts.

(** C4: the rewrite is idempotent: the rewrite of the rewrite of a value
    is the rewrite of the value (both raise if the tokenizer raises
    during the first pass).  Whenever the first pass returns, its result
    has no string under a [content] key in any dict, and a second pass
    (from any parser state) returns that result unchanged and does not
    use the parser. *)
Theorem transform_idempotent {base : Type}
        (feed : base -> str -> option (list event * base))
        (d : value) (p : ContentParser base) :
  option_map fst
    (match transform_content_fields feed d p with
     | Some (d1, p1) => transform_content_fields feed d1 p1
     | None => None
     end)
  = option_map fst (transform_content_fields feed d p)
  /\ (forall d1 p1,
        transform_content_fields feed d p = Some (d1, p1) ->
        settled d1
        /\ forall p', transform_content_fields feed d1 p' = Some (d1, p')).
Proof.
  assert (H : forall d1 p1,
             transform_content_fields feed d p = Some (d1, p1) ->
             settled d1
             /\ forall p',
                 transform_content_fields feed d1 p' = Some (d1, p')).
  { intros d1 p1 E.
    pose proof (transform_settles base feed d p d1 p1 E) as Hs.
    split; [exact Hs|]. intros p'. apply settled_fixed. exact Hs. }
  split; [|exact H].
  destruct (transform_content_fields feed d p) as [[d1 p1]|] eqn:E;
    [|reflexivity].
  destruct (H d1 p1 eq_refl) as [_ Hfix]. rewrite (Hfix p1). reflexivity.
Qed.

Lemma transform_idempotent_witness :
  exists d1 p1,
    transform_content_fields PyHTML.feed
      (VDict [(py "title", VStr (py "<h1>X</h1>"));
              (py "content", VStr (py "<h1>Y</h1>text"))])
      PyHTML.fresh
    = Some (d1, p1)
    /\ d1 = VDict [(py "title", VStr (py "<h1>X</h1>"));
                   (py "content",
                    VList [section_value
                             (mkSection (py "h1") (py "Y") (py "text"))])]
    /\ transform_content_fields PyHTML.feed d1 p1 = Some (d1, p1)
    /\ transform_content_fields PyHTML.feed d1 PyHTML.fresh
       = Some (d1, PyHTML.fresh).
Proof.
  eexists. eexists. split; [vm_compute; reflexivity|].
  split; [reflexivity|].
  destruct (transform_idempotent PyHTML.feed
              (VDict [(py "title", VStr (py "<h1>X</h1>"));
                      (py "content", VStr (py "<h1>Y</h1>text"))])
              PyHTML.fresh) as [_ H].
  split; refine (proj2 (H _ _ _) _); vm_compute; reflexivity.
Defined.

(** C6: the rewriter returns a scalar unchanged; whenever it returns on a
    list, the result is a list of the same length, each item rewritten;
    whenever it returns on a dict, the result is a dict with the same keys
    in the same order, where the value of a field is the parsed sections
    if the key is [content] and the value a string, and the rewritten
    value otherwise.  In [{title: <h1>X</h1>, content: <h1>Y</h1>}] only
    [content] is replaced. *)
Theorem transform_frame {base : Type}
        (feed : base -> str -> option (list event * base))
        (p : ContentParser base) :
  (forall v, is_scalar v = true ->
             transform_content_fields feed v p = Some (v, p))
  /\ (forall items v' p',
        transform_content_fields feed (VList items) p = Some (v', p') ->
        exists out,
          v' = VList out
          /\ length out = length items
          /\ Forall2 (item_rewritten feed) items out)
  /\ (forall fields v' p',
        NoDup (map fst fields) ->
        transform_content_fields feed (VDict fields) p = Some (v', p') ->
        exists out,
          v' = VDict out
          /\ map fst out = map fst fields
          /\ Forall2 (field_rewritten feed) fields out)
  /\ option_map fst
       (transform_content_fields PyHTML.feed
          (VDict [(py "title", VStr (py "<h1>X</h1>"));
                  (py "content", VStr (py "<h1>Y</h1>"))])
          PyHTML.fresh)
     = Some (VDict [(py "title", VStr (py "<h1>X</h1>"));
                    (py "content",
                     VList [section_value
                              (mkSection (py "h1") (py "Y") [])])]).
Proof.
  split; [|split; [|split]].
  - intros v Hv. destruct v; try discriminate; reflexivity.
  - intros items v' p' E. rewrite transform_list in E.
    destruct (fold_left (list_step feed) items (Some ([], p)))
      as [[out p1]|] eqn:Ef; [|discriminate].
    injection E as <- _.
    destruct (list_fold_frame base feed items [] p out p1 Ef)
      as (out' & -> & HF).
    exists out'. split; [reflexivity|]. split; [|exact HF].
    symmetry. exact (Forall2_length HF).
  - intros fields v' p' Hnd E. rewrite transform_dict in E.
    destruct (fold_left (dict_step feed) fields (Some ([], p)))
      as [[out p1]|] eqn:Ef; [|discriminate].
    injection E as <- _.
    destruct (dict_fold_frame base feed fields [] p out p1 Hnd Ef)
      as (out' & -> & HF).
    exists out'. split; [reflexivity|]. split; [|exact HF].
    exact (field_rewritten_keys base feed fields out' HF).
  - vm_compute. reflexivity.
Qed.

Lemma transform_frame_witness :
  is_scalar (VStr (py "<h1>X</h1>")) = true
  /\ NoDup (map fst [(py "title", VStr (py "<h1>X</h1>"));
                     (py "content", VStr (py "<h1>Y</h1>"))])
  /\ transform_content_fields PyHTML.feed (VStr (py "<h1>X</h1>"))
       PyHTML.fresh
     = Some (VStr (py "<h1>X</h1>"), PyHTML.fresh)
  /\ exists v' p',
       transform_content_fields PyHTML.feed
         (VDict [(py "title", VStr (py "<h1>X</h1>"));
                 (py "content", VStr (py "<h1>Y</h1>"))])
         PyHTML.fresh
       = Some (v', p')
       /\ exists out,
            v' = VDict out /\ map fst out = [py "title"; py "content"].
Proof.
  assert (Hnd : NoDup (map fst [(py "title", VStr (py "<h1>X</h1>"));
                                (py "content", VStr (py "<h1>Y</h1>"))])).
  { constructor; [|constructor; [intros []|constructor]].
    intros [H|[]]. discriminate H. }
  destruct (transform_frame PyHTML.feed PyHTML.fresh) as (H1 & _ & H3 & _).
  split; [reflexivity|]. split; [exact Hnd|].
  split; [apply H1; reflexivity|].
  eexists. eexists. split; [vm_compute; reflexivity|].
  edestruct H3 as (out & E & Hk & _); [exact Hnd|vm_compute; reflexivity|].
  exists out. split; [exact E|exact Hk].
Defined.

(** ** Whitespace normalization *)

Section Substitution.

Variable m : str -> option nat.
Variable repl : str.

Lemma re_sub_from_skipn (s : str) : forall k,
  re_sub_from m repl k s = re_sub_from m repl 0 (skipn k s).
Proof.
  induction s as [|c s IH]; intros [|k]; try reflexivity.
  cbn [re_sub_from skipn]. apply IH.
Qed.

Lemma decided_within_tail c u X :
  decided_within m (c :: u) X -> decided_within m u X.
Proof.
  intros H a d t E. apply (H (c :: a) d t). rewrite E. reflexivity.
Qed.

Lemma re_sub_from_app (u X : str) :
  decided_within m u X ->
  forall k, k <= length u ->
    re_sub_from m repl k (u ++ X)
    = re_sub_from m repl k u ++ re_sub_from m repl 0 X.
Proof.
  induction u as [|c u IH]; intros Hd k Hk.
  - simpl in Hk. replace k with 0 by lia. reflexivity.
  - pose proof (decided_within_tail c u X Hd) as Hd'.
    destruct k as [|k].
    + cbn [app re_sub_from].
      destruct (Hd [] c u eq_refl) as [Hm Hj]. cbn [app] in Hm. rewrite Hm.
      destruct (m (c :: u)) as [[|j]|] eqn:E.
      * rewrite (IH Hd' 0) by lia. reflexivity.
      * specialize (Hj _ eq_refl). simpl in Hj.
        rewrite (IH Hd' j) by lia. rewrite app_assoc. reflexivity.
      * rewrite (IH Hd' 0) by lia. reflexivity.
    + cbn [app re_sub_from]. simpl in Hk. apply (IH Hd'). lia.
Qed.

End Substitution.

Lemma take_while_app_all (p : N -> bool) (w y : str) :
  forallb p w = true -> take_while p (w ++ y) = w ++ take_while p y.
Proof.
  induction w as [|c w IH]; simpl; [reflexivity|].
  intros H. apply andb_true_iff in H as [Hc Hw]. rewrite Hc, IH; auto.
Qed.

Lemma take_while_app_stop (p : N -> bool) (t X : str) :
  forallb p t = false -> take_while p (t ++ X) = take_while p t.
Proof.
  induction t as [|c t IH]; simpl; [discriminate|].
  destruct (p c); simpl; [|reflexivity]. intros H. rewrite IH; auto.
Qed.

Lemma take_while_length (p : N -> bool) (s : str) :
  length (take_while p s) <= length s.
Proof.
  induction s as [|c s IH]; simpl; [lia|]. destruct (p c); simpl; lia.
Qed.

Lemma skipn_take_while (p : N -> bool) (s : str) :
  skipn (length (take_while p s)) s = drop_while p s.
Proof.
  induction s as [|c s IH]; simpl; [reflexivity|].
  destruct (p c); simpl; [exact IH|reflexivity].
Qed.

Lemma last_nl_end_le (w : str) k : last_nl_end w = Some k -> k <= length w.
Proof.
  revert k. induction w as [|c w IH]; simpl; [discriminate|].
  intros k. destruct (last_nl_end w) as [j|].
  - intros H; injection H as <-. specialize (IH _ eq_refl). lia.
  - destruct (N.eqb c nl); [|discriminate]. intros H; injection H as <-. lia.
Qed.

Lemma last_nl_end_none (t : str) : no_newline t = true -> last_nl_end t = None.
Proof.
  unfold no_newline. induction t as [|c t IH]; [reflexivity|].
  cbn [existsb last_nl_end]. rewrite negb_orb. intros H.
  apply andb_true_iff in H as [Hc Ht].
  rewrite (IH Ht). rewrite N.eqb_sym.
  destruct (N.eqb nl c); [discriminate Hc|reflexivity].
Qed.

Lemma last_nl_end_app (w t : str) :
  last_nl_end t = None -> last_nl_end (w ++ nl :: t) = Some (S (length w)).
Proof.
  intros Ht. induction w as [|c w IH]; simpl.
  - rewrite Ht. reflexivity.
  - rewrite IH. reflexivity.
Qed.

Lemma forallb_rev_eq (p : N -> bool) (l : str) :
  forallb p (rev l) = forallb p l.
Proof.
  induction l as [|c l IH]; simpl; [reflexivity|].
  rewrite forallb_app, IH. simpl. rewrite andb_true_r. apply andb_comm.
Qed.

Lemma ends_without_newline_suffix (a t : str) :
  ends_without_newline (a ++ nl :: t) = true -> forallb isspace t = false.
Proof.
  unfold ends_without_newline, no_newline. intros H.
  destruct (forallb isspace t) eqn:E; [|reflexivity].
  rewrite rev_app_distr in H. simpl in H. rewrite <- app_assoc in H.
  rewrite take_while_app_all in H by (rewrite forallb_rev_eq; exact E).
  rewrite existsb_app in H.
  change (take_while isspace ([nl] ++ rev a))
    with (nl :: take_while isspace (rev a)) in H.
  cbn [existsb] in H. rewrite N.eqb_refl in H. cbn [orb] in H.
  rewrite orb_true_r in H. discriminate.
Qed.

Lemma match_blank_decided (u X : str) :
  ends_without_newline u = true -> decided_within match_blank u X.
Proof.
  intros Hu a c t E. unfold match_blank. cbn [app].
  destruct (N.eqb c nl) eqn:Ec.
  - apply N.eqb_eq in Ec. subst c. subst u.
    rewrite (take_while_app_stop _ _ _ (ends_without_newline_suffix _ _ Hu)).
    split; [reflexivity|].
    intros j. destruct (last_nl_end (take_while isspace t)) as [k|] eqn:Ek;
      [|discriminate].
    intros H; injection H as <-. apply last_nl_end_le in Ek.
    pose proof (take_while_length isspace t). simpl. lia.
  - split; [reflexivity|discriminate].
Qed.

(** Within a run of whitespace, everything from its first newline to its
    last newline becomes one blank line. *)
Lemma blank_lines_collapse (u w v : str) :
  ends_without_newline u = true ->
  forallb isspace w = true ->
  starts_without_newline v = true ->
  re_sub match_blank [nl; nl] (u ++ nl :: w ++ nl :: v)
  = re_sub match_blank [nl; nl] u ++ [nl; nl]
    ++ re_sub match_blank [nl; nl] v.
Proof.
  intros Hu Hw Hv. unfold re_sub.
  rewrite (re_sub_from_app match_blank [nl; nl] u _ (match_blank_decided u _ Hu))
    by lia.
  f_equal. cbn [re_sub_from]. unfold match_blank.
  rewrite N.eqb_refl.
  rewrite (take_while_app_all _ _ _ Hw).
  change (take_while isspace (nl :: v)) with (nl :: take_while isspace v).
  rewrite (last_nl_end_app w _ (last_nl_end_none _ Hv)).
  rewrite re_sub_from_skipn.
  replace (skipn (S (length w)) (w ++ nl :: v)) with v; [reflexivity|].
  replace (S (length w)) with (length (w ++ [nl]))
    by (rewrite length_app; simpl; lia).
  change (nl :: v) with ([nl] ++ v). rewrite app_assoc.
  rewrite skipn_app, skipn_all, Nat.sub_diag. reflexivity.
Qed.






Lemma drop_while_starts_without_space (s : str) :
  starts_without_space (drop_while (N.eqb sp) s) = true.
Proof.
  induction s as [|c s IH]; [reflexivity|]. cbn [drop_while].
  destruct (N.eqb sp c) eqn:E; [exact IH|].
  cbn [starts_without_space]. rewrite E. reflexivity.
Qed.

Lemma drop_while_length (p : N -> bool) (s : str) :
  length (drop_while p s) <= length s.
Proof.
  induction s as [|c s IH]; simpl; [lia|]. destruct (p c); simpl; lia.
Qed.

Lemma match_spaces_cons (c : N) (r : str) :
  match_spaces (c :: r)
  = if N.eqb sp c then Some (S (length (take_while (N.eqb sp) r))) else None.
Proof.
  unfold match_spaces. cbn [take_while]. destruct (N.eqb sp c); reflexivity.
Qed.

Lemma sub_spaces_no_double (n : nat) : forall s : str,
  length s <= n ->
  no_double_space (re_sub match_spaces [sp] s) = true
  /\ (starts_without_space s = true ->
      starts_without_space (re_sub match_spaces [sp] s) = true).
Proof.
  induction n as [|n IH]; intros [|c r] Hl; try (split; reflexivity).
  - simpl in Hl. lia.
  - simpl in Hl. unfold re_sub. cbn [re_sub_from].
    rewrite match_spaces_cons.
    destruct (N.eqb sp c) eqn:Ec.
    + cbn [app]. rewrite re_sub_from_skipn, skipn_take_while.
      pose proof (drop_while_length (N.eqb sp) r) as Hd.
      destruct (IH (drop_while (N.eqb sp) r)) as [H1 H2]; [lia|].
      specialize (H2 (drop_while_starts_without_space r)).
      unfold re_sub in H1, H2. split.
      * cbn [no_double_space]. rewrite H1, andb_true_r.
        destruct (re_sub_from match_spaces [sp] 0 (drop_while (N.eqb sp) r))
          as [|b o]; [reflexivity|].
        cbn [starts_without_space] in H2. rewrite andb_comm.
        destruct (N.eqb sp b); [discriminate|reflexivity].
      * cbn [starts_without_space]. rewrite Ec. discriminate.
    + destruct (IH r) as [H1 _]; [lia|]. unfold re_sub in H1.
      split.
      * cbn [no_double_space]. rewrite H1, andb_true_r, Ec.
        destruct (re_sub_from match_spaces [sp] 0 r); reflexivity.
      * intros _. cbn [starts_without_space]. rewrite Ec. reflexivity.
Qed.

Lemma no_double_space_suffix (a s : str) :
  no_double_space (a ++ s) = true -> no_double_space s = true.
Proof.
  induction a as [|c a IH]; [auto|]. cbn [app no_double_space].
  intros H. apply andb_true_iff in H as [_ H]. auto.
Qed.

Lemma no_double_space_prefix (s b : str) :
  no_double_space (s ++ b) = true -> no_double_space s = true.
Proof.
  induction s as [|c s IH]; [reflexivity|]. cbn [app no_double_space].
  intros H. apply andb_true_iff in H as [H1 H2]. rewrite (IH H2), andb_true_r.
  destruct s; [reflexivity|exact H1].
Qed.

Lemma lstrip_suffix (s : str) : exists a, s = a ++ lstrip s.
Proof.
  induction s as [|c s [a IH]]; [exists []; reflexivity|]. cbn [lstrip].
  destruct (isspace c).
  - exists (c :: a). cbn [app]. f_equal. exact IH.
  - exists []. reflexivity.
Qed.

Lemma rstrip_prefix (s : str) : exists b, s = rstrip s ++ b.
Proof.
  unfold rstrip. destruct (lstrip_suffix (rev s)) as [a E].
  exists (rev a). rewrite <- rev_app_distr, <- E, rev_involutive. reflexivity.
Qed.

Lemma strip_infix (s : str) : exists a b, s = a ++ strip s ++ b.
Proof.
  unfold strip. destruct (lstrip_suffix s) as [a Ea].
  destruct (rstrip_prefix (lstrip s)) as [b Eb].
  exists a, b. rewrite <- Eb. exact Ea.
Qed.

Lemma lstrip_head (s : str) c r : lstrip s = c :: r -> isspace c = false.
Proof.
  induction s as [|d s IH]; [discriminate|]. cbn [lstrip].
  destruct (isspace d) eqn:E; [exact IH|].
  intros H; injection H as <- _. exact E.
Qed.

Lemma strip_trimmed (s : str) : trimmed (strip s) = true.
Proof.
  unfold trimmed. apply andb_true_iff. split.
  - destruct (strip s) as [|c r] eqn:E; [reflexivity|].
    unfold strip in E. destruct (rstrip_prefix (lstrip s)) as [b Eb].
    rewrite E in Eb. cbn [app] in Eb.
    rewrite (lstrip_head _ _ _ Eb). reflexivity.
  - unfold strip, rstrip. rewrite rev_involutive.
    destruct (lstrip (rev (lstrip s))) as [|c r] eqn:E; [reflexivity|].
    rewrite (lstrip_head _ _ _ E). reflexivity.
Qed.

Lemma clean_description_no_double_space (content : list str) :
  no_double_space (clean_description content) = true.
Proof.
  unfold clean_description.
  set (d := re_sub match_spaces [sp] _).
  destruct (strip_infix d) as (a & b & E).
  apply (no_double_space_prefix _ b). apply (no_double_space_suffix a).
  rewrite <- E. apply (sub_spaces_no_double (length _) _ (le_n _)).
Qed.

Lemma sub_blank_id (s : str) :
  forallb (fun c => negb (N.eqb c nl)) s = true ->
  re_sub match_blank [nl; nl] s = s.
Proof.
  unfold re_sub. induction s as [|c s IH]; [reflexivity|].
  cbn [forallb re_sub_from match_blank]. intros H.
  apply andb_true_iff in H as [Hc Hs].
  destruct (N.eqb c nl); [discriminate|]. rewrite (IH Hs). reflexivity.
Qed.

Lemma sub_spaces_id (s : str) :
  forallb (fun c => negb (N.eqb sp c)) s = true ->
  re_sub match_spaces [sp] s = s.
Proof.
  unfold re_sub. induction s as [|c s IH]; [reflexivity|].
  cbn [forallb re_sub_from]. rewrite match_spaces_cons. intros H.
  apply andb_true_iff in H as [Hc Hs].
  destruct (N.eqb sp c); [discriminate|]. rewrite (IH Hs). reflexivity.
Qed.

Lemma strip_id (s : str) : trimmed s = true -> strip s = s.
Proof.
  unfold trimmed. intros H. apply andb_true_iff in H as [H1 H2].
  assert (El : lstrip s = s).
  { destruct s as [|c r]; [reflexivity|]. cbn [lstrip].
    destruct (isspace c); [discriminate|reflexivity]. }
  unfold strip, rstrip. rewrite El.
  destruct (rev s) as [|c r] eqn:E.
  - apply (f_equal (@rev N)) in E. rewrite rev_involutive in E. exact (eq_sym E).
  - cbn [lstrip]. destruct (isspace c); [discriminate|].
    rewrite <- E. apply rev_involutive.
Qed.

Lemma word_no_space (u : str) (c : N) :
  word u = true -> In c u -> isspace c = false.
Proof.
  unfold word. intros H Hc. apply andb_true_iff in H as [_ H].
  rewrite forallb_forall in H. specialize (H c Hc).
  destruct (isspace c); [discriminate|reflexivity].
Qed.

Lemma word_forallb (p : N -> bool) (u : str) :
  (forall c, p c = true -> isspace c = true) ->
  word u = true -> forallb (fun c => negb (p c)) u = true.
Proof.
  intros Hp Hu. apply forallb_forall. intros c Hc.
  pose proof (word_no_space u c Hu Hc) as Hs.
  destruct (p c) eqn:E; [|reflexivity]. rewrite (Hp c E) in Hs. discriminate.
Qed.

Lemma nl_isspace (c : N) : N.eqb c nl = true -> isspace c = true.
Proof. intros H. apply N.eqb_eq in H. subst. reflexivity. Qed.

Lemma sp_isspace (c : N) : N.eqb sp c = true -> isspace c = true.
Proof. intros H. apply N.eqb_eq in H. subst. reflexivity. Qed.

Lemma word_take_while (u y : str) :
  word u = true -> take_while isspace (u ++ y) = [].
Proof.
  intros H. destruct u as [|c u]; [discriminate|]. cbn [app take_while].
  rewrite (word_no_space (c :: u) c H); [reflexivity|left; reflexivity].
Qed.

Lemma word_rev (u : str) : word u = true -> word (rev u) = true.
Proof.
  unfold word. intros H. apply andb_true_iff in H as [H1 H2].
  rewrite forallb_rev_eq, H2, andb_true_r.
  destruct u as [|c u]; [discriminate|]. simpl. destruct (rev u); reflexivity.
Qed.

Lemma words_trimmed (u mid v : str) :
  word u = true -> word v = true -> trimmed (u ++ mid ++ v) = true.
Proof.
  intros Hu Hv. unfold trimmed. apply andb_true_iff. split.
  - destruct u as [|c u]; [discriminate|]. cbn [app].
    rewrite (word_no_space (c :: u) c Hu); [reflexivity|left; reflexivity].
  - rewrite !rev_app_distr, <- app_assoc. pose proof (word_rev v Hv) as Hr.
    destruct (rev v) as [|c r]; [discriminate|]. cbn [app].
    rewrite (word_no_space (c :: r) c Hr); [reflexivity|left; reflexivity].
Qed.

(** Between two words, whitespace that starts and ends with a newline
    becomes exactly one blank line. *)
Lemma description_blank_lines (u w v : str) :
  word u = true -> forallb isspace w = true -> word v = true ->
  clean_description [u ++ nl :: w ++ nl :: v] = u ++ [nl; nl] ++ v.
Proof.
  intros Hu Hw Hv. unfold clean_description. cbn [concat].
  rewrite app_nil_r.
  assert (Ht : trimmed (u ++ nl :: w ++ nl :: v) = true).
  { replace (u ++ nl :: w ++ nl :: v) with (u ++ (nl :: w ++ [nl]) ++ v)
      by (cbn [app]; rewrite <- app_assoc; reflexivity).
    apply (words_trimmed u _ v Hu Hv). }
  rewrite (strip_id _ Ht).
  rewrite blank_lines_collapse; [| |exact Hw|].
  - rewrite (sub_blank_id u (word_forallb _ u nl_isspace Hu)).
    rewrite (sub_blank_id v (word_forallb _ v nl_isspace Hv)).
    rewrite sub_spaces_id.
    + apply strip_id. apply (words_trimmed u [nl; nl] v Hu Hv).
    + rewrite !forallb_app.
      rewrite (word_forallb _ u sp_isspace Hu).
      rewrite (word_forallb _ v sp_isspace Hv). reflexivity.
  - unfold ends_without_newline.
    rewrite <- (app_nil_r (rev u)), (word_take_while _ _ (word_rev u Hu)).
    reflexivity.
  - unfold starts_without_newline.
    rewrite <- (app_nil_r v), (word_take_while _ _ Hv). reflexivity.
Qed.





(** ** Sections and the headings of the markup *)

Lemma subseq_nil_r (a : list str) : subseq a [] = true -> a = [].
Proof. destruct a; [reflexivity|discriminate]. Qed.

Lemma subseq_nil_l (b : list str) : subseq [] b = true.
Proof. destruct b; reflexivity. Qed.

Lemma subseq_snoc (b : list str) (x : str) : forall a,
  subseq a b = true -> subseq (a ++ [x]) (b ++ [x]) = true.
Proof.
  induction b as [|y b IH]; intros a H.
  - rewrite (subseq_nil_r a H). simpl. rewrite str_eqb_refl. reflexivity.
  - destruct a as [|z a].
    + cbn [app subseq]. destruct (str_eqb x y); [apply subseq_nil_l|].
      apply (IH []). apply subseq_nil_l.
    + cbn [app subseq] in *. destruct (str_eqb z y).
      * apply IH. exact H.
      * apply (IH (z :: a)). exact H.
Qed.

Lemma subseq_prefix (t : str) (b : list str) : forall a,
  subseq (a ++ [t]) b = true -> subseq a b = true.
Proof.
  induction b as [|y b IH]; intros a H.
  - destruct a; discriminate H.
  - destruct a as [|x a]; [apply subseq_nil_l|].
    cbn [app subseq] in *. destruct (str_eqb x y).
    + apply IH. exact H.
    + apply (IH (x :: a)). exact H.
Qed.

Lemma subseq_length (b : list str) : forall a,
  subseq a b = true -> length a <= length b.
Proof.
  induction b as [|y b IH]; intros a H.
  - rewrite (subseq_nil_r a H). simpl. lia.
  - destruct a as [|x a]; [simpl; lia|].
    cbn [subseq] in H. destruct (str_eqb x y).
    + specialize (IH a H). simpl. lia.
    + specialize (IH (x :: a) H). simpl in *. lia.
Qed.

Lemma subseq_In (b : list str) : forall a x,
  subseq a b = true -> In x a -> In x b.
Proof.
  induction b as [|y b IH]; intros a x H Hx.
  - rewrite (subseq_nil_r a H) in Hx. contradiction.
  - destruct a as [|z a]; [contradiction|].
    cbn [subseq] in H. destruct (str_eqb z y) eqn:E.
    + apply str_eqb_eq in E. subst z. destruct Hx as [<-|Hx].
      * left. reflexivity.
      * right. apply (IH a x H Hx).
    + right. apply (IH (z :: a) x H Hx).
Qed.

Lemma heading_tags_cons (e : event) (evs : list event) :
  heading_tags (e :: evs) = heading_tags [e] ++ heading_tags evs.
Proof.
  destruct e as [tag attrs|tag|data]; cbn [heading_tags]; try reflexivity.
  destruct (str_in tag headings); reflexivity.
Qed.

Lemma heading_tags_In (evs : list event) (t : str) :
  In t (heading_tags evs) -> In t headings.
Proof.
  induction evs as [|e evs IH]; [contradiction|].
  destruct e as [tag attrs|tag|data]; cbn [heading_tags]; auto.
  destruct (str_in tag headings) eqn:E; auto.
  intros [<-|H]; [apply str_in_In; exact E|auto].
Qed.

Lemma headings_truthy (t : str) : In t headings -> truthy t = true.
Proof.
  unfold headings. simpl.
  intros H. repeat (destruct H as [<-|H]; [reflexivity|]). contradiction.
Qed.

Lemma heading_inv_dispatch {base : Type} (p p' : ContentParser base)
      (e : event) (seen : list str) :
  heading_inv p seen -> dispatch p e = Some p' ->
  heading_inv p' (seen ++ heading_tags [e]).
Proof.
  intros Hi H. destruct e as [tag attrs|tag|data]; cbn [dispatch] in H.
  - injection H as <-. cbn [heading_tags]. unfold handle_starttag.
    destruct (str_in tag headings) eqn:Eh.
    + right. exists [], tag. cbn [current_heading current_heading_type].
      split; [reflexivity|]. split; [reflexivity|].
      split; [apply str_in_In; exact Eh|]. cbn [sections].
      destruct Hi as [(E1 & _ & E3 & E4)|(h & t & E1 & E2 & Ht & Hs)].
      * rewrite E1. cbn [is_some]. rewrite E3, E4. simpl.
        rewrite str_eqb_refl. reflexivity.
      * rewrite E1. cbn [is_some]. rewrite save_section_sections.
        destruct (heading_truthy (current_heading p)
                  || truthy (current_content p)).
        -- rewrite map_app. cbn [map]. unfold pending_section at 1.
           cbn [headingType]. rewrite E2, (headings_truthy t Ht).
           apply subseq_snoc. exact Hs.
        -- apply subseq_snoc. apply (subseq_prefix t). exact Hs.
    + rewrite app_nil_r.
      destruct (str_in tag preserve_tags); [exact Hi|].
      destruct (str_eqb tag (py "br")); exact Hi.
  - injection H as <-. cbn [heading_tags]. rewrite app_nil_r.
    unfold handle_endtag. destruct (str_in tag headings); [exact Hi|].
    destruct (str_in tag preserve_tags); [|exact Hi].
    destruct (top (tag_stack p)) as [t|]; [|exact Hi].
    destruct (str_eqb t tag); exact Hi.
  - cbn [heading_tags]. rewrite app_nil_r. unfold handle_data in H.
    destruct (in_heading p).
    + destruct (current_heading p) as [h0|] eqn:E0; [|discriminate].
      injection H as <-.
      destruct Hi as [(E1 & _)|(h & t & E1 & E2 & Ht & Hs)];
        [rewrite E0 in E1; discriminate|].
      right. exists (h0 ++ data), t. repeat split; assumption.
    + injection H as <-. exact Hi.
Qed.

Lemma heading_inv_run {base : Type} (evs : list event) :
  forall (p p' : ContentParser base) (seen : list str),
    heading_inv p seen -> run_events p evs = Some p' ->
    heading_inv p' (seen ++ heading_tags evs).
Proof.
  induction evs as [|e evs IH]; intros p p' seen Hi H; cbn [run_events] in H.
  - injection H as <-. cbn [heading_tags]. rewrite app_nil_r. exact Hi.
  - destruct (dispatch p e) as [p1|] eqn:E; [|discriminate].
    rewrite heading_tags_cons, app_assoc.
    apply (IH p1 p' _ (heading_inv_dispatch p p1 e seen Hi E) H).
Qed.

(** What [parse_content] returns, by the heading start tags among the
    handler calls. *)
Lemma parse_content_headings {base : Type}
      (feed : base -> str -> option (list event * base))
      (p p' : ContentParser base) (s : str) (secs : list SectionRecord) :
  blank s = false ->
  parse_content feed p s = Some (secs, p') ->
  (heading_tags (fed_events (feed (inherited p) s)) = []
   /\ (secs = [] \/ exists d, secs = [mkSection (py "p") [] d]))
  \/ (heading_tags (fed_events (feed (inherited p) s)) <> []
      /\ subseq (map headingType secs)
                (heading_tags (fed_events (feed (inherited p) s))) = true).
Proof.
  intros Hb H. unfold parse_content in H. rewrite Hb in H.
  change (inherited (reset_fields p)) with (inherited p) in H.
  destruct (feed (inherited p) s) as [[evs b]|]; [|discriminate].
  cbn [fed_events].
  destruct (run_events (reset_fields p) evs) as [p1|] eqn:E; [|discriminate].
  injection H as <- _.
  assert (Hi : heading_inv (reset_fields p) []).
  { left. repeat split; reflexivity. }
  pose proof (heading_inv_run evs _ p1 [] Hi E) as H1. cbn [app] in H1.
  rewrite save_last_sections, save_section_sections.
  unfold pending_section, set_inherited.
  cbn [sections current_heading current_heading_type current_content].
  destruct H1 as [(E1 & E2 & E3 & E4)|(h & t & E1 & E2 & Ht & Hs)].
  - left. split; [exact E4|]. rewrite E1, E2, E3. cbn [heading_truthy orb].
    destruct (truthy (current_content p1)); [right|left; reflexivity].
    eexists. reflexivity.
  - right. split.
    + intros E0. rewrite E0 in Hs.
      destruct (map headingType (sections p1)); discriminate Hs.
    + rewrite E1, E2, (headings_truthy t Ht).
      destruct (heading_truthy (Some h) || truthy (current_content p1)).
      * rewrite map_app. exact Hs.
      * apply (subseq_prefix t). exact Hs.
Qed.

(** X1: on markup with at least one heading start tag, the heading types
    of the sections returned are the tags of heading start tags of the
    markup, in the order of the markup, each start tag giving at most one
    section. *)
Theorem sections_follow_headings {base : Type}
        (feed : base -> str -> option (list event * base))
        (p p' : ContentParser base) (s : str) (secs : list SectionRecord) :
  blank s = false ->
  parse_content feed p s = Some (secs, p') ->
  heading_tags (fed_events (feed (inherited p) s)) <> [] ->
  subseq (map headingType secs) (heading_tags (fed_events (feed (inherited p) s)))
  = true.
Proof.
  intros Hb H Hn.
  destruct (parse_content_headings feed p p' s secs Hb H) as [[E _]|[_ Hs]];
    [contradiction|exact Hs].
Qed.

Lemma sections_follow_headings_witness :
  blank (py "<h2>A</h2>x<h1></h1><h3>C</h3>y") = false
  /\ heading_tags
       (fed_events
          (PyHTML.feed PyHTML.base_init
             (py "<h2>A</h2>x<h1></h1><h3>C</h3>y")))
     = [py "h2"; py "h1"; py "h3"]
  /\ exists secs p',
       PyHTML.parse PyHTML.fresh (py "<h2>A</h2>x<h1></h1><h3>C</h3>y")
       = Some (secs, p')
       /\ map headingType secs = [py "h2"; py "h3"]
       /\ subseq (map headingType secs) [py "h2"; py "h1"; py "h3"] = true.
Proof.
  split; [reflexivity|]. split; [vm_compute; reflexivity|].
  eexists. eexists. split; [vm_compute; reflexivity|].
  split; [reflexivity|].
  refine (sections_follow_headings PyHTML.feed PyHTML.fresh _
            (py "<h2>A</h2>x<h1></h1><h3>C</h3>y") _ eq_refl _ _).
  - vm_compute. reflexivity.
  - vm_compute. discriminate.
Defined.

(** X2: [parse_content] never returns more sections than the markup has
    heading start tags, except that markup without any heading gives at
    most one section, of type p with an empty heading; and every heading
    type returned is p or one of h1 to h6. *)
Theorem sections_bounded_by_headings {base : Type}
        (feed : base -> str -> option (list event * base))
        (p p' : ContentParser base) (s : str) (secs : list SectionRecord) :
  blank s = false ->
  parse_content feed p s = Some (secs, p') ->
  length secs
  <= Nat.max 1 (length (heading_tags (fed_events (feed (inherited p) s))))
  /\ Forall (fun r => In (headingType r) (py "p" :: headings)) secs
  /\ (heading_tags (fed_events (feed (inherited p) s)) = [] ->
      secs = [] \/ exists d, secs = [mkSection (py "p") [] d]).
Proof.
  intros Hb H.
  destruct (parse_content_headings feed p p' s secs Hb H)
    as [[E Hs]|[Hn Hs]].
  - rewrite E. split; [|split; [|intros _; exact Hs]].
    + destruct Hs as [->|[d ->]]; simpl; lia.
    + destruct Hs as [->|[d ->]]; repeat constructor.
  - split; [|split; [|intros E; contradiction]].
    + pose proof (subseq_length _ _ Hs) as Hl. rewrite length_map in Hl. lia.
    + apply Forall_forall. intros r Hr. right.
      apply (heading_tags_In (fed_events (feed (inherited p) s))).
      apply (subseq_In _ _ _ Hs). apply in_map. exact Hr.
Qed.

Lemma sections_bounded_by_headings_witness :
  blank (py "<p>no heading</p>") = false
  /\ exists secs p',
       PyHTML.parse PyHTML.fresh (py "<p>no heading</p>") = Some (secs, p')
       /\ length secs <= 1
       /\ Forall (fun r => In (headingType r) (py "p" :: headings)) secs.
Proof.
  split; [reflexivity|].
  eexists. eexists. split; [vm_compute; reflexivity|].
  destruct (sections_bounded_by_headings PyHTML.feed PyHTML.fresh
              (mkParser [] [mkSection (py "p") [] (py "no heading")]
                        None None [] false [])
              (py "<p>no heading</p>")
              [mkSection (py "p") [] (py "no heading")] eq_refl)
    as (H1 & H2 & _); [vm_compute; reflexivity|].
  split; [exact H1|exact H2].
Defined.

(** ** The strings of the sections returned *)

Lemma dispatch_sections_cases {base : Type} (p p' : ContentParser base)
      (e : event) :
  dispatch p e = Some p' ->
  sections p' = sections p \/ sections p' = sections p ++ [pending_section p].
Proof.
  destruct e as [tag attrs|tag|data]; cbn [dispatch]; intros H.
  - injection H as <-. rewrite handle_starttag_sections.
    destruct (str_in tag headings && is_some (current_heading p));
      [|left; reflexivity].
    rewrite save_section_sections.
    destruct (heading_truthy (current_heading p)
              || truthy (current_content p)); [right|left]; reflexivity.
  - injection H as <-. left. apply handle_endtag_sections.
  - left. apply (handle_data_sections p p' data H).
Qed.

Lemma run_events_sections_Forall {base : Type} (Q : SectionRecord -> Prop) :
  (forall p : ContentParser base, Q (pending_section p)) ->
  forall (evs : list event) (p p' : ContentParser base),
    Forall Q (sections p) -> run_events p evs = Some p' ->
    Forall Q (sections p').
Proof.
  intros HQ. induction evs as [|e evs IH]; intros p p' Hp H;
    cbn [run_events] in H.
  - injection H as <-. exact Hp.
  - destruct (dispatch p e) as [p1|] eqn:E; [|discriminate].
    apply (IH p1 p'); [|exact H].
    destruct (dispatch_sections_cases p p1 e E) as [->| ->]; [exact Hp|].
    apply Forall_app. split; [exact Hp|]. constructor; [apply HQ|constructor].
Qed.

(** Whatever holds of every section [_save_section] can append holds of
    every section [parse_content] returns. *)
Lemma parse_content_sections_Forall {base : Type}
      (feed : base -> str -> option (list event * base))
      (Q : SectionRecord -> Prop) :
  (forall p : ContentParser base, Q (pending_section p)) ->
  forall (p p' : ContentParser base) (s : str) (secs : list SectionRecord),
    parse_content feed p s = Some (secs, p') -> Forall Q secs.
Proof.
  intros HQ p p' s secs H. unfold parse_content in H.
  destruct (blank s); [injection H as <- _; constructor|].
  destruct (feed (inherited (reset_fields p)) s) as [[evs b]|];
    [|discriminate].
  destruct (run_events (reset_fields p) evs) as [p1|] eqn:E; [|discriminate].
  injection H as <- _.
  pose proof (run_events_sections_Forall Q HQ evs (reset_fields p) p1
                (Forall_nil _) E) as H1.
  rewrite save_last_sections, save_section_sections.
  destruct (heading_truthy (current_heading (set_inherited p1 b))
            || truthy (current_content (set_inherited p1 b)));
    [|exact H1].
  apply Forall_app. split; [exact H1|]. constructor; [apply HQ|constructor].
Qed.

(** X3: in every section [parse_content] returns, the heading text and
    the description have no whitespace at either end, and the description
    has no two spaces in a row. *)
Theorem sections_are_normalized {base : Type}
        (feed : base -> str -> option (list event * base))
        (p p' : ContentParser base) (s : str) (secs : list SectionRecord) :
  parse_content feed p s = Some (secs, p') ->
  Forall (fun r => section_normal r = true) secs.
Proof.
  apply parse_content_sections_Forall. clear. intros p.
  unfold section_normal, pending_section. cbn [section description].
  rewrite clean_description_no_double_space.
  unfold clean_description. rewrite strip_trimmed.
  destruct (current_heading p); [rewrite strip_trimmed|]; reflexivity.
Qed.

Lemma sections_are_normalized_witness :
  exists secs p',
    PyHTML.parse PyHTML.fresh (py "<h1>  A  title </h1>  some    text  ")
    = Some (secs, p')
    /\ secs = [mkSection (py "h1") (py "A  title") (py "some text")]
    /\ Forall (fun r => section_normal r = true) secs.
Proof.
  eexists. eexists. split; [vm_compute; reflexivity|].
  split; [reflexivity|].
  refine (sections_are_normalized PyHTML.feed PyHTML.fresh _
            (py "<h1>  A  title </h1>  some    text  ") _ _).
  vm_compute. reflexivity.
Defined.

(** ** At most one blank line *)

Lemma no_triple_newline_cons (a : N) (r : str) :
  no_triple_newline (a :: r)
  = negb (N.eqb a nl
          && (starts_with_newline r && starts_with_newline (tl r)))
    && no_triple_newline r.
Proof.
  cbn [no_triple_newline]. destruct r as [|b [|c r]]; cbn;
    rewrite ?andb_false_r; reflexivity.
Qed.

Lemma last_nl_end_None_no_newline (w : str) :
  last_nl_end w = None -> no_newline w = true.
Proof.
  unfold no_newline. induction w as [|c w IH]; [reflexivity|].
  cbn [last_nl_end existsb].
  destruct (last_nl_end w); [discriminate|].
  rewrite N.eqb_sym. destruct (N.eqb nl c); [discriminate|].
  intros _. apply IH. reflexivity.
Qed.

Lemma last_nl_end_skipn (w : str) : forall k,
  last_nl_end w = Some k -> no_newline (skipn k w) = true.
Proof.
  induction w as [|c w IH]; intros k; [discriminate|].
  cbn [last_nl_end]. destruct (last_nl_end w) as [j|] eqn:E.
  - intros H; injection H as <-. cbn [skipn]. apply IH. reflexivity.
  - destruct (N.eqb c nl); [|discriminate].
    intros H; injection H as <-. cbn [skipn].
    apply last_nl_end_None_no_newline. exact E.
Qed.

Lemma take_drop_while (p : N -> bool) (s : str) :
  s = take_while p s ++ drop_while p s.
Proof.
  induction s as [|c s IH]; [reflexivity|]. cbn [take_while drop_while].
  destruct (p c); [|reflexivity]. cbn [app]. f_equal. exact IH.
Qed.

Lemma drop_while_isspace_head (s : str) :
  starts_with_newline (drop_while isspace s) = false.
Proof.
  induction s as [|c s IH]; [reflexivity|]. cbn [drop_while].
  destruct (isspace c) eqn:E; [exact IH|]. cbn [starts_with_newline].
  destruct (N.eqb c nl) eqn:Ec; [|reflexivity].
  rewrite (nl_isspace c Ec) in E. discriminate.
Qed.

Lemma starts_with_newline_app (a d : str) :
  no_newline a = true -> starts_with_newline d = false ->
  starts_with_newline (a ++ d) = false.
Proof.
  destruct a as [|c a]; [auto|]. unfold no_newline.
  cbn [existsb app starts_with_newline]. rewrite (N.eqb_sym c nl).
  destruct (N.eqb nl c); [discriminate|reflexivity].
Qed.

Lemma match_blank_cons (c : N) (r : str) :
  match_blank (c :: r)
  = if N.eqb c nl
    then match last_nl_end (take_while isspace r) with
         | Some k => Some (S k)
         | None => None
         end
    else None.
Proof. reflexivity. Qed.

(** After a match, what follows does not start with a newline. *)
Lemma after_match_no_newline (r : str) (k : nat) :
  last_nl_end (take_while isspace r) = Some k ->
  starts_with_newline (skipn k r) = false.
Proof.
  intros H. rewrite (take_drop_while isspace r) at 1.
  rewrite skipn_app.
  replace (k - length (take_while isspace r)) with 0
    by (apply last_nl_end_le in H; lia).
  cbn [skipn]. apply starts_with_newline_app.
  - apply last_nl_end_skipn. exact H.
  - apply drop_while_isspace_head.
Qed.

Lemma no_match_no_newline (r : str) :
  last_nl_end (take_while isspace r) = None ->
  starts_with_newline r = false.
Proof.
  destruct r as [|x r]; [reflexivity|]. cbn [starts_with_newline take_while].
  destruct (N.eqb x nl) eqn:E; [|reflexivity].
  rewrite (nl_isspace x E). cbn [last_nl_end]. rewrite E.
  destruct (last_nl_end (take_while isspace r)); discriminate.
Qed.

Lemma sub_blank_no_triple (n : nat) : forall s : str,
  length s <= n ->
  no_triple_newline (re_sub match_blank [nl; nl] s) = true
  /\ (starts_with_newline s = false ->
      starts_with_newline (re_sub match_blank [nl; nl] s) = false).
Proof.
  induction n as [|n IH]; intros [|c r] Hl; try (split; reflexivity).
  - simpl in Hl. lia.
  - simpl in Hl. unfold re_sub. cbn [re_sub_from].
    rewrite match_blank_cons. cbn [starts_with_newline].
    destruct (N.eqb c nl) eqn:Ec.
    + destruct (last_nl_end (take_while isspace r)) as [k|] eqn:El.
      * rewrite re_sub_from_skipn. cbn [app].
        destruct (IH (skipn k r)) as [H1 H2];
          [rewrite length_skipn; lia|].
        specialize (H2 (after_match_no_newline r k El)).
        unfold re_sub in H1, H2. split; [|discriminate].
        rewrite !no_triple_newline_cons, H1. cbn [tl starts_with_newline].
        rewrite H2, !andb_false_r. reflexivity.
      * destruct (IH r) as [H1 H2]; [lia|].
        specialize (H2 (no_match_no_newline r El)).
        unfold re_sub in H1, H2. split; [|discriminate].
        rewrite no_triple_newline_cons, H1, H2. rewrite andb_false_r.
        reflexivity.
    + destruct (IH r) as [H1 _]; [lia|]. unfold re_sub in H1.
      split; [|intros _; cbn [starts_with_newline]; exact Ec].
      rewrite no_triple_newline_cons, H1, Ec. reflexivity.
Qed.

Lemma sub_spaces_cons (c : N) (r : str) :
  re_sub match_spaces [sp] (c :: r)
  = if N.eqb sp c
    then sp :: re_sub match_spaces [sp] (drop_while (N.eqb sp) r)
    else c :: re_sub match_spaces [sp] r.
Proof.
  unfold re_sub. cbn [re_sub_from]. rewrite match_spaces_cons.
  destruct (N.eqb sp c); [|reflexivity].
  cbn [app]. rewrite re_sub_from_skipn, skipn_take_while. reflexivity.
Qed.

Lemma sub_spaces_starts (s : str) :
  starts_with_newline (re_sub match_spaces [sp] s) = starts_with_newline s.
Proof.
  destruct s as [|c r]; [reflexivity|]. rewrite sub_spaces_cons.
  destruct (N.eqb sp c) eqn:E; [|reflexivity].
  apply N.eqb_eq in E. subst c. reflexivity.
Qed.

Lemma sub_spaces_starts2 (s : str) :
  starts_with_newline (re_sub match_spaces [sp] s)
  && starts_with_newline (tl (re_sub match_spaces [sp] s))
  = starts_with_newline s && starts_with_newline (tl s).
Proof.
  destruct s as [|c r]; [reflexivity|]. rewrite sub_spaces_cons.
  destruct (N.eqb sp c) eqn:E.
  - apply N.eqb_eq in E. subst c. reflexivity.
  - cbn [tl starts_with_newline]. rewrite sub_spaces_starts. reflexivity.
Qed.

Lemma no_triple_newline_suffix (a s : str) :
  no_triple_newline (a ++ s) = true -> no_triple_newline s = true.
Proof.
  induction a as [|c a IH]; [auto|]. cbn [app].
  rewrite no_triple_newline_cons. intros H.
  apply andb_true_iff in H as [_ H]. auto.
Qed.

Lemma no_triple_newline_prefix (s b : str) :
  no_triple_newline (s ++ b) = true -> no_triple_newline s = true.
Proof.
  induction s as [|c s IH]; [reflexivity|]. cbn [app].
  rewrite !no_triple_newline_cons. intros H.
  apply andb_true_iff in H as [H1 H2]. rewrite (IH H2), andb_true_r.
  destruct s as [|y [|z s]]; cbn in *; rewrite ?andb_false_r; auto.
Qed.

Lemma sub_spaces_no_triple (n : nat) : forall s : str,
  length s <= n ->
  no_triple_newline s = true ->
  no_triple_newline (re_sub match_spaces [sp] s) = true.
Proof.
  induction n as [|n IH]; intros [|c r] Hl H; try reflexivity.
  - simpl in Hl. lia.
  - simpl in Hl. rewrite sub_spaces_cons.
    rewrite no_triple_newline_cons in H.
    apply andb_true_iff in H as [H1 H2].
    destruct (N.eqb sp c) eqn:E.
    + rewrite no_triple_newline_cons. cbn [N.eqb sp nl andb negb].
      apply IH.
      * pose proof (drop_while_length (N.eqb sp) r). lia.
      * apply (no_triple_newline_suffix (take_while (N.eqb sp) r)).
        rewrite <- take_drop_while. exact H2.
    + rewrite no_triple_newline_cons, sub_spaces_starts2, H1.
      apply IH; [lia|exact H2].
Qed.

(** X4: no description has three newlines in a row: paragraphs are
    separated by one blank line at most. *)
Theorem description_has_no_triple_newline {base : Type}
        (feed : base -> str -> option (list event * base))
        (p p' : ContentParser base) (s : str) (secs : list SectionRecord) :
  parse_content feed p s = Some (secs, p') ->
  Forall (fun r => no_triple_newline (description r) = true) secs.
Proof.
  apply parse_content_sections_Forall. clear. intros p.
  unfold pending_section, clean_description. cbn [description].
  set (d := re_sub match_spaces [sp] _).
  destruct (strip_infix d) as (a & b & E).
  apply (no_triple_newline_prefix _ b). apply (no_triple_newline_suffix a).
  rewrite <- E. unfold d.
  apply (sub_spaces_no_triple (length _) _ (le_n _)).
  apply (sub_blank_no_triple (length _) _ (le_n _)).
Qed.

Lemma description_has_no_triple_newline_witness :
  exists secs p',
    PyHTML.parse PyHTML.fresh
      (py "a" ++ [nl; sp; nl; nl; 9%N; nl] ++ py "b<br><br><br>c")
    = Some (secs, p')
    /\ secs = [mkSection (py "p") []
                 (py "a" ++ [nl; nl] ++ py "b" ++ [nl; nl] ++ py "c")]
    /\ Forall (fun r => no_triple_newline (description r) = true) secs.
Proof.
  eexists. eexists. split; [vm_compute; reflexivity|].
  split; [reflexivity|].
  refine (description_has_no_triple_newline PyHTML.feed PyHTML.fresh _
            (py "a" ++ [nl; sp; nl; nl; 9%N; nl] ++ py "b<br><br><br>c")
            _ _).
  vm_compute. reflexivity.
Defined.

(** ** Structural tags *)

Lemma dispatch_structural {base : Type} (p : ContentParser base) (e : event) :
  structural e = true -> dispatch p e = Some p.
Proof.
  destruct e as [tag attrs|tag|data]; cbn [structural dispatch];
    [| |discriminate]; intros H.
  - apply andb_true_iff in H as [H H3]. apply andb_true_iff in H as [H1 H2].
    unfold handle_starttag.
    destruct (str_in tag headings); [discriminate|].
    destruct (str_in tag preserve_tags); [discriminate|].
    destruct (str_eqb tag (py "br")); [discriminate|reflexivity].
  - apply andb_true_iff in H as [H1 H2]. unfold handle_endtag.
    destruct (str_in tag headings); [discriminate|].
    destruct (str_in tag preserve_tags); [discriminate|reflexivity].
Qed.

(** X5: tags that are neither headings, preserved inline tags nor [br]
    are transparent for a whole run: leaving all their start and end tags
    out of the handler calls changes neither the result nor the state. *)
Theorem structural_tags_transparent {base : Type} (evs : list event) :
  forall p : ContentParser base,
    run_events p (filter (fun e => negb (structural e)) evs)
    = run_events p evs.
Proof.
  induction evs as [|e evs IH]; intros p; [reflexivity|].
  cbn [filter]. destruct (structural e) eqn:E; cbn [negb run_events].
  - rewrite (dispatch_structural p e E). apply IH.
  - destruct (dispatch p e) as [p1|]; [apply IH|reflexivity].
Qed.

(** ** Reuse of an instance whose tokenizer is in its initial state *)

(** X6: what [parse_content] returns depends on the instance only through
    the inherited tokenizer state: two instances that agree on it return
    the same sections, and on non-blank input end in the same state; so an
    instance whose tokenizer state is that of a fresh instance behaves as
    a fresh instance, whatever an earlier call left in its other
    attributes. *)
Theorem reuse_depends_on_tokenizer_state_only {base : Type}
        (feed : base -> str -> option (list event * base))
        (p q : ContentParser base) (s : str) :
  inherited p = inherited q ->
  option_map fst (parse_content feed p s)
  = option_map fst (parse_content feed q s)
  /\ (blank s = false -> parse_content feed p s = parse_content feed q s).
Proof.
  intros H. split; [apply parse_content_fields_isolated; exact H|].
  intros Hb. unfold parse_content. rewrite Hb.
  unfold reset_fields. rewrite H. reflexivity.
Qed.

Lemma reuse_depends_on_tokenizer_state_only_witness :
  exists p1,
    PyHTML.parse PyHTML.fresh (py "<h1>A</h1>one <b>two") = Some
      ([mkSection (py "h1") (py "A") (py "one <b>two")], p1)
    /\ tag_stack p1 = [py "b"]
    /\ inherited p1 = inherited PyHTML.fresh
    /\ PyHTML.parse p1 (py "x</b>") = PyHTML.parse PyHTML.fresh (py "x</b>").
Proof.
  eexists. split; [vm_compute; reflexivity|].
  split; [reflexivity|]. split; [reflexivity|].
  refine (proj2 (reuse_depends_on_tokenizer_state_only PyHTML.feed _
                   PyHTML.fresh (py "x</b>") _) _); reflexivity.
Defined.

(** ** Documents without content strings *)

Lemma nodupb_NoDup (l : list str) : nodupb l = true -> NoDup l.
Proof.
  induction l as [|x l IH]; [constructor|]. cbn [nodupb]. intros H.
  apply andb_true_iff in H as [H1 H2]. constructor; [|apply IH; exact H2].
  intros Hin. apply str_in_In in Hin. rewrite Hin in H1. discriminate.
Qed.

(** X7: a document in which no dict has a string under the key
    [content] is returned as it is, and the parser is not touched. *)
Theorem document_without_content_strings_unchanged {base : Type}
        (feed : base -> str -> option (list event * base))
        (v : value) (p : ContentParser base) :
  no_content_strings v = true ->
  transform_content_fields feed v p = Some (v, p).
Proof.
  intros Hv. apply settled_fixed. clear p. revert Hv.
  induction v using value_ind; intros Hv; try constructor.
  - cbn [no_content_strings] in Hv. rewrite forallb_forall in Hv.
    rewrite Forall_forall in *. intros x Hx. apply (H x Hx). apply (Hv x Hx).
  - cbn [no_content_strings] in Hv.
    apply andb_true_iff in Hv as [Hn _]. apply nodupb_NoDup. exact Hn.
  - cbn [no_content_strings] in Hv.
    apply andb_true_iff in Hv as [_ Hf]. rewrite forallb_forall in Hf.
    rewrite Forall_forall in *. intros kv Hkv.
    specialize (Hf kv Hkv). apply andb_true_iff in Hf as [Hc Hs].
    split; [|apply (H kv Hkv); exact Hs].
    destruct (content_string (fst kv) (snd kv)); [discriminate|reflexivity].
Qed.

Lemma document_without_content_strings_unchanged_witness :
  no_content_strings
    (VDict [(py "title", VStr (py "<h1>X</h1>"));
            (py "content", VNull);
            (py "items", VList [VNum (NInt 1); VBool true])]) = true
  /\ transform_content_fields PyHTML.feed
       (VDict [(py "title", VStr (py "<h1>X</h1>"));
               (py "content", VNull);
               (py "items", VList [VNum (NInt 1); VBool true])])
       PyHTML.fresh
     = Some (VDict [(py "title", VStr (py "<h1>X</h1>"));
                    (py "content", VNull);
                    (py "items", VList [VNum (NInt 1); VBool true])],
             PyHTML.fresh).
Proof.
  split; [reflexivity|].
  apply (document_without_content_strings_unchanged PyHTML.feed).
  reflexivity.
Defined.

(** ** Line breaks *)

Lemma clean_description_concat (content : list str) :
  clean_description content = clean_description [concat content].
Proof.
  unfold clean_description. cbn [concat]. rewrite app_nil_r. reflexivity.
Qed.

Lemma concat_repeat_nl (k : nat) : concat (repeat [nl] k) = repeat nl k.
Proof. induction k as [|k IH]; [reflexivity|]. simpl. rewrite IH. reflexivity. Qed.

Lemma word_ends_without_newline (u : str) :
  word u = true -> ends_without_newline u = true.
Proof.
  intros Hu. unfold ends_without_newline.
  rewrite <- (app_nil_r (rev u)), (word_take_while _ _ (word_rev u Hu)).
  reflexivity.
Qed.

(** Between two words, a single newline stays as it is. *)
Lemma description_single_newline (u v : str) :
  word u = true -> word v = true ->
  clean_description [u ++ nl :: v] = u ++ nl :: v.
Proof.
  intros Hu Hv. unfold clean_description. cbn [concat]. rewrite app_nil_r.
  assert (Ht : trimmed (u ++ nl :: v) = true)
    by (apply (words_trimmed u [nl] v Hu Hv)).
  rewrite (strip_id _ Ht).
  assert (Eb : re_sub match_blank [nl; nl] (u ++ nl :: v) = u ++ nl :: v).
  { unfold re_sub.
    rewrite (re_sub_from_app match_blank [nl; nl] u _
               (match_blank_decided u _ (word_ends_without_newline u Hu)))
      by lia.
    fold (re_sub match_blank [nl; nl] u).
    rewrite (sub_blank_id u (word_forallb _ u nl_isspace Hu)).
    f_equal. cbn [re_sub_from]. rewrite match_blank_cons, N.eqb_refl.
    rewrite <- (app_nil_r v) at 1. rewrite (word_take_while v [] Hv).
    cbn [last_nl_end]. f_equal.
    apply (sub_blank_id v (word_forallb _ v nl_isspace Hv)). }
  rewrite Eb, sub_spaces_id; [apply strip_id; exact Ht|].
  rewrite forallb_app. cbn [forallb].
  rewrite (word_forallb _ u sp_isspace Hu).
  rewrite (word_forallb _ v sp_isspace Hv). reflexivity.
Qed.

Lemma run_events_br {base : Type} (b : base) (secs : list SectionRecord)
      (h t : option str) (stack : list str) (inh : bool)
      (attrs : list (str * option str)) (evs : list event) (k : nat) :
  forall content,
    run_events (mkParser b secs h t content inh stack)
               (repeat (Starttag (py "br") attrs) k ++ evs)
    = run_events (mkParser b secs h t (content ++ repeat [nl] k) inh stack)
                 evs.
Proof.
  induction k as [|k IH]; intros content.
  - cbn [repeat app]. rewrite app_nil_r. reflexivity.
  - cbn [repeat app run_events dispatch].
    change (handle_starttag (mkParser b secs h t content inh stack)
                            (py "br") attrs)
      with (mkParser b secs h t (content ++ [[nl]]) inh stack).
    rewrite IH, <- app_assoc. reflexivity.
Qed.

(** X8: a [br] start tag gives a line break in the description, and two
    or more in a row give exactly one blank line: for text [u], then
    [n + 1] line-break tags, then text [v] (both words), outside a
    heading, the description of the section in progress is [u], one
    newline if [n = 0] and two otherwise, then [v]. *)
Theorem br_gives_line_break {base : Type} (b : base)
        (secs : list SectionRecord) (h t : option str) (stack : list str)
        (attrs : list (str * option str)) (u v : str) (n : nat) :
  word u = true -> word v = true ->
  exists p',
    run_events (mkParser b secs h t [] false stack)
               (Data u :: repeat (Starttag (py "br") attrs) (S n)
                ++ [Data v])
    = Some p'
    /\ description (pending_section p')
       = u ++ match n with O => [nl] | S _ => [nl; nl] end ++ v.
Proof.
  intros Hu Hv. eexists. split.
  - cbn [run_events dispatch handle_data in_heading app].
    cbn [inherited sections current_heading current_heading_type
         current_content tag_stack].
    rewrite run_events_br. reflexivity.
  - unfold pending_section. cbn [description current_content].
    rewrite clean_description_concat.
    rewrite !concat_app, concat_repeat_nl. cbn [concat]. rewrite !app_nil_r.
    rewrite <- app_assoc. destruct n as [|n].
    + cbn [repeat app]. apply (description_single_newline u v Hu Hv).
    + replace (repeat nl (S (S n))) with (nl :: repeat nl n ++ [nl])
        by (cbn [repeat]; rewrite <- repeat_cons; reflexivity).
      cbn [app]. rewrite <- app_assoc. cbn [app].
      apply (description_blank_lines u (repeat nl n) v Hu); [|exact Hv].
      apply forallb_forall. intros c Hc. apply repeat_spec in Hc. subst.
      reflexivity.
Qed.

Lemma br_gives_line_break_witness :
  word (py "Line-one") = true /\ word (py "Line-two") = true
  /\ exists p',
       run_events (reset_fields PyHTML.fresh)
                  [Data (py "Line-one"); Starttag (py "br") [];
                   Starttag (py "br") []; Starttag (py "br") [];
                   Data (py "Line-two")]
       = Some p'
       /\ description (pending_section p')
          = py "Line-one" ++ [nl; nl] ++ py "Line-two".
Proof.
  split; [reflexivity|]. split; [reflexivity|].
  exact (br_gives_line_break PyHTML.base_init [] None None [] []
           (py "Line-one") (py "Line-two") 2 eq_refl eq_refl).
Defined.

(** ** One parser for all the content fields of a document *)

Section Threading.

Variable base : Type.
Variable feed : base -> str -> option (list event * base).

Local Abbreviation T := (transform_content_fields feed).

Lemma save_last_inherited (p : ContentParser base) :
  inherited (save_last p) = inherited p.
Proof.
  unfold save_last.
  destruct (is_some (current_heading p) || truthy (current_content p));
    reflexivity.
Qed.

Lemma parse_content_inherited (p p' : ContentParser base) (s : str)
      (r : list SectionRecord) :
  parse_content feed p s = Some (r, p') ->
  feed_all feed (inherited p) [s] = Some (inherited p').
Proof.
  unfold parse_content. cbn [feed_all].
  destruct (blank s); [intros H; injection H as _ <-; reflexivity|].
  change (inherited (reset_fields p)) with (inherited p).
  destruct (feed (inherited p) s) as [[evs b]|]; [|discriminate].
  destruct (run_events (reset_fields p) evs) as [p1|]; [|discriminate].
  intros H; injection H as _ <-. rewrite save_last_inherited. reflexivity.
Qed.

Lemma feed_all_app (l1 l2 : list str) : forall b : base,
  feed_all feed b (l1 ++ l2)
  = match feed_all feed b l1 with
    | Some b1 => feed_all feed b1 l2
    | None => None
    end.
Proof.
  induction l1 as [|s l1 IH]; intros b; cbn [app feed_all]; [reflexivity|].
  destruct (blank s); [apply IH|].
  destruct (feed b s) as [[evs b1]|]; [apply IH|reflexivity].
Qed.

Lemma list_fold_threads (items : list value) :
  Forall (fun x => forall p v' p',
              T x p = Some (v', p') ->
              feed_all feed (inherited p) (content_strings x)
              = Some (inherited p'))
         items ->
  forall out p out' p',
    fold_left (list_step feed) items (Some (out, p)) = Some (out', p') ->
    feed_all feed (inherited p) (flat_map content_strings items)
    = Some (inherited p').
Proof.
  induction 1 as [|x items Hx _ IH]; intros out p out' p' E;
    cbn [fold_left] in E.
  - injection E as _ <-. reflexivity.
  - unfold list_step at 2 in E.
    destruct (T x p) as [[v1 p1]|] eqn:Ex.
    + cbn [flat_map]. rewrite feed_all_app, (Hx _ _ _ Ex).
      apply (IH _ _ _ _ E).
    + rewrite list_fold_None in E. discriminate.
Qed.

Lemma dict_fold_threads (fields : list (str * value)) :
  Forall (fun kv => forall p v' p',
              T (snd kv) p = Some (v', p') ->
              feed_all feed (inherited p) (content_strings (snd kv))
              = Some (inherited p'))
         fields ->
  forall new_obj p out p',
    fold_left (dict_step feed) fields (Some (new_obj, p)) = Some (out, p') ->
    feed_all feed (inherited p)
      (flat_map (fun kv =>
                   match content_string (fst kv) (snd kv) with
                   | Some s => [s]
                   | None => content_strings (snd kv)
                   end) fields)
    = Some (inherited p').
Proof.
  induction 1 as [|kv fields Hx _ IH]; intros new_obj p out p' E;
    cbn [fold_left] in E.
  - injection E as _ <-. reflexivity.
  - unfold dict_step at 2 in E. cbn [flat_map]. rewrite feed_all_app.
    destruct (content_string (fst kv) (snd kv)) as [s|].
    + destruct (parse_content feed p s) as [[secs p1]|] eqn:Ep.
      * rewrite (parse_content_inherited p p1 s secs Ep).
        apply (IH _ _ _ _ E).
      * rewrite dict_fold_None in E. discriminate.
    + destruct (T (snd kv) p) as [[v1 p1]|] eqn:Ev.
      * rewrite (Hx _ _ _ Ev). apply (IH _ _ _ _ E).
      * rewrite dict_fold_None in E. discriminate.
Qed.

Lemma parse_content_threads (p : ContentParser base) (s : str) :
  feed_all feed (inherited p) [s] = tokenizer_after (parse_content feed p s).
Proof.
  destruct (parse_content feed p s) as [[r p']|] eqn:E; cbn [tokenizer_after].
  - apply (parse_content_inherited p p' s r E).
  - destruct (proj1 (parse_content_raises_iff base feed p s) E) as [Hb Hf].
    cbn [feed_all]. rewrite Hb, Hf. reflexivity.
Qed.

Lemma list_fold_tokenizer (items : list value) :
  Forall (fun x => forall p,
              feed_all feed (inherited p) (content_strings x)
              = tokenizer_after (T x p))
         items ->
  forall out p,
    feed_all feed (inherited p) (flat_map content_strings items)
    = tokenizer_after (fold_left (list_step feed) items (Some (out, p))).
Proof.
  induction 1 as [|x items Hx _ IH]; intros out p; cbn [fold_left flat_map].
  - reflexivity.
  - rewrite feed_all_app, Hx. unfold list_step at 2.
    destruct (T x p) as [[v1 p1]|]; cbn [tokenizer_after].
    + apply IH.
    + rewrite list_fold_None. reflexivity.
Qed.

Lemma dict_fold_tokenizer (fields : list (str * value)) :
  Forall (fun kv => forall p,
              feed_all feed (inherited p) (content_strings (snd kv))
              = tokenizer_after (T (snd kv) p))
         fields ->
  forall new_obj p,
    feed_all feed (inherited p)
      (flat_map (fun kv =>
                   match content_string (fst kv) (snd kv) with
                   | Some s => [s]
                   | None => content_strings (snd kv)
                   end) fields)
    = tokenizer_after (fold_left (dict_step feed) fields (Some (new_obj, p))).
Proof.
  induction 1 as [|kv fields Hx _ IH]; intros new_obj p;
    cbn [fold_left flat_map].
  - reflexivity.
  - rewrite feed_all_app. unfold dict_step at 2.
    destruct (content_string (fst kv) (snd kv)) as [s|].
    + rewrite parse_content_threads.
      destruct (parse_content feed p s) as [[secs p1]|];
        cbn [tokenizer_after].
      * apply IH.
      * rewrite dict_fold_None. reflexivity.
    + rewrite Hx.
      destruct (T (snd kv) p) as [[v1 p1]|]; cbn [tokenizer_after].
      * apply IH.
      * rewrite dict_fold_None. reflexivity.
Qed.

End Threading.

(** X9: the rewriter uses one parser for the whole document: the strings
    under [content] keys are parsed in the order of the traversal, each
    non-blank one fed to the tokenizer in the state the one before left,
    and that is the only way the rewriter changes the tokenizer state. *)
Theorem content_fields_share_the_tokenizer {base : Type}
        (feed : base -> str -> option (list event * base)) (v : value) :
  forall (v' : value) (p p' : ContentParser base),
    transform_content_fields feed v p = Some (v', p') ->
    feed_all feed (inherited p) (content_strings v) = Some (inherited p').
Proof.
  induction v using value_ind; intros v' p p' E;
    try (cbn in E; injection E as _ <-; reflexivity).
  - rewrite transform_list in E.
    destruct (fold_left (list_step feed) items (Some ([], p)))
      as [[out p1]|] eqn:Ef; [|discriminate].
    injection E as _ <-. cbn [content_strings].
    apply (list_fold_threads base feed items) with (out := []) (out' := out);
      [|exact Ef].
    apply Forall_forall. intros x Hx q w q' Eq.
    rewrite Forall_forall in H. apply (H x Hx w q q' Eq).
  - rewrite transform_dict in E.
    destruct (fold_left (dict_step feed) fields (Some ([], p)))
      as [[out p1]|] eqn:Ef; [|discriminate].
    injection E as _ <-. cbn [content_strings].
    apply (dict_fold_threads base feed fields)
      with (new_obj := []) (out := out); [|exact Ef].
    apply Forall_forall. intros kv Hkv q w q' Eq.
    rewrite Forall_forall in H. apply (H kv Hkv w q q' Eq).
Qed.

Lemma content_fields_share_the_tokenizer_witness :
  content_strings
    (VList [VDict [(py "content", VStr (py "x<b"))];
            VDict [(py "title", VStr (py "T"));
                   (py "content", VStr (py ">y"))]])
  = [py "x<b"; py ">y"]
  /\ exists v' p',
       transform_content_fields PyHTML.feed
         (VList [VDict [(py "content", VStr (py "x<b"))];
                 VDict [(py "title", VStr (py "T"));
                        (py "content", VStr (py ">y"))]])
         PyHTML.fresh
       = Some (v', p')
       /\ v' = VList
                 [VDict [(py "content",
                          sections_value [mkSection (py "p") [] (py "x")])];
                  VDict [(py "title", VStr (py "T"));
                         (py "content",
                          sections_value
                            [mkSection (py "p") [] (py "<b>y")])]]
       /\ feed_all PyHTML.feed PyHTML.base_init [py "x<b"; py ">y"]
          = Some (inherited p').
Proof.
  split; [reflexivity|].
  eexists. eexists. split; [vm_compute; reflexivity|].
  split; [reflexivity|].
  refine (content_fields_share_the_tokenizer PyHTML.feed
            (VList [VDict [(py "content", VStr (py "x<b"))];
                    VDict [(py "title", VStr (py "T"));
                           (py "content", VStr (py ">y"))]])
            _ PyHTML.fresh _ _).
  vm_compute. reflexivity.
Defined.

(** X12: the rewriter raises exactly when the tokenizer raises on one of
    the strings under [content] keys, fed in the order of the traversal,
    each non-blank one in the state the one before left; and when it
    returns, the tokenizer is in the state these calls leave. *)
Theorem rewriter_raises_iff_tokenizer_raises {base : Type}
        (feed : base -> str -> option (list event * base)) (v : value) :
  forall p : ContentParser base,
    feed_all feed (inherited p) (content_strings v)
    = tokenizer_after (transform_content_fields feed v p)
    /\ (transform_content_fields feed v p = None
        <-> feed_all feed (inherited p) (content_strings v) = None).
Proof.
  assert (H : forall p : ContentParser base,
             feed_all feed (inherited p) (content_strings v)
             = tokenizer_after (transform_content_fields feed v p)).
  { induction v using value_ind; intros p; try reflexivity.
    - rewrite transform_list. cbn [content_strings].
      rewrite (list_fold_tokenizer base feed items H [] p).
      destruct (fold_left (list_step feed) items (Some ([], p)))
        as [[out p1]|]; reflexivity.
    - rewrite transform_dict. cbn [content_strings].
      rewrite (dict_fold_tokenizer base feed fields H [] p).
      destruct (fold_left (dict_step feed) fields (Some ([], p)))
        as [[out p1]|]; reflexivity. }
  intros p. split; [apply H|]. rewrite (H p).
  destruct (transform_content_fields feed v p) as [[v' p']|];
    cbn [tokenizer_after]; split; intros E; try discriminate E; reflexivity.
Qed.

Lemma rewriter_raises_iff_tokenizer_raises_witness :
  content_strings
    (VList [VDict [(py "content", VStr (py "<h1>A</h1>"))];
            VDict [(py "content", VStr (py "<![x]>"))]])
  = [py "<h1>A</h1>"; py "<![x]>"]
  /\ PyHTML.tokenize (py "<![x]>") = PyHTML.Raises
  /\ feed_all PyHTML.feed PyHTML.base_init [py "<h1>A</h1>"; py "<![x]>"]
     = None
  /\ transform_content_fields PyHTML.feed
       (VList [VDict [(py "content", VStr (py "<h1>A</h1>"))];
               VDict [(py "content", VStr (py "<![x]>"))]])
       PyHTML.fresh
     = None.
Proof.
  split; [reflexivity|]. split; [vm_compute; reflexivity|].
  split; [vm_compute; reflexivity|].
  apply (proj2 (rewriter_raises_iff_tokenizer_raises PyHTML.feed
                  (VList [VDict [(py "content", VStr (py "<h1>A</h1>"))];
                          VDict [(py "content", VStr (py "<![x]>"))]])
                  PyHTML.fresh)).
  vm_compute. reflexivity.
Defined.

(** ** How the text is cut into chunks *)

Lemma same_text_refl {base : Type} (p : ContentParser base) : same_text p p.
Proof. unfold same_text. repeat split; reflexivity. Qed.

Lemma same_text_save_section {base : Type} (p q : ContentParser base) :
  same_text p q -> _save_section p = _save_section q.
Proof.
  destruct p as [b1 s1 h1 t1 c1 i1 k1], q as [b2 s2 h2 t2 c2 i2 k2].
  unfold same_text. cbn.
  intros (-> & -> & -> & -> & Hc & Ht & -> & ->).
  unfold _save_section, clean_description. cbn. rewrite Hc, Ht. reflexivity.
Qed.

Lemma truthy_snoc {A} (c : list A) (x : A) : truthy (c ++ [x]) = true.
Proof. destruct c; reflexivity. Qed.

Lemma concat_snoc (c : list str) (x : str) : concat (c ++ [x]) = concat c ++ x.
Proof. rewrite concat_app. cbn [concat]. rewrite app_nil_r. reflexivity. Qed.

Lemma same_text_dispatch {base : Type} (p q : ContentParser base)
      (e : event) :
  same_text p q ->
  match dispatch p e, dispatch q e with
  | Some p', Some q' => same_text p' q'
  | None, None => True
  | _, _ => False
  end.
Proof.
  intros H. pose proof (same_text_save_section p q H) as Hsave.
  destruct p as [b1 s1 h1 t1 c1 i1 k1], q as [b2 s2 h2 t2 c2 i2 k2].
  unfold same_text in H. cbn in H.
  destruct H as (-> & -> & -> & -> & Hc & Ht & -> & ->).
  destruct e as [tag attrs|tag|data]; cbn [dispatch].
  - unfold handle_starttag. cbn [current_heading].
    destruct (str_in tag headings).
    + destruct h2 as [h|]; cbn [is_some].
      * rewrite Hsave. apply same_text_refl.
      * unfold same_text. cbn. repeat split; assumption.
    + destruct (str_in tag preserve_tags);
        [|destruct (str_eqb tag (py "br"))];
        unfold same_text; cbn;
        rewrite ?concat_snoc, ?truthy_snoc, ?Hc; repeat split; assumption.
  - unfold handle_endtag. cbn [tag_stack].
    destruct (str_in tag headings);
      [unfold same_text; cbn; repeat split; assumption|].
    destruct (str_in tag preserve_tags);
      [|unfold same_text; cbn; repeat split; assumption].
    destruct (top k2) as [t|];
      [|unfold same_text; cbn; repeat split; assumption].
    destruct (str_eqb t tag);
      unfold same_text; cbn;
      rewrite ?concat_snoc, ?truthy_snoc, ?Hc; repeat split; assumption.
  - unfold handle_data. cbn [in_heading current_heading].
    destruct i2.
    + destruct h2 as [h|]; [|exact I].
      unfold same_text. cbn. repeat split; assumption.
    + unfold same_text. cbn.
      rewrite ?concat_snoc, ?truthy_snoc, ?Hc. repeat split; assumption.
Qed.

Lemma same_text_run {base : Type} (evs : list event) :
  forall p q : ContentParser base,
    same_text p q ->
    match run_events p evs, run_events q evs with
    | Some p', Some q' => same_text p' q'
    | None, None => True
    | _, _ => False
    end.
Proof.
  induction evs as [|e evs IH]; intros p q H; cbn [run_events]; [exact H|].
  pose proof (same_text_dispatch p q e H) as Hd.
  destruct (dispatch p e) as [p1|], (dispatch q e) as [q1|];
    try contradiction; [apply IH; exact Hd|exact I].
Qed.

Lemma same_text_save_last {base : Type} (p q : ContentParser base) :
  same_text p q -> sections (save_last p) = sections (save_last q).
Proof.
  intros H. rewrite !save_last_sections, (same_text_save_section p q H).
  reflexivity.
Qed.

Lemma run_events_app {base : Type} (l1 l2 : list event) :
  forall p : ContentParser base,
    run_events p (l1 ++ l2)
    = match run_events p l1 with
      | Some p1 => run_events p1 l2
      | None => None
      end.
Proof.
  induction l1 as [|e l1 IH]; intros p; [reflexivity|].
  cbn [app run_events]. destruct (dispatch p e); [apply IH|reflexivity].
Qed.

(** One chunk of text, or the same text in two chunks. *)
Lemma handle_data_split {base : Type} (p : ContentParser base) (a b : str) :
  match handle_data p (a ++ b),
        match handle_data p a with
        | Some p1 => handle_data p1 b
        | None => None
        end
  with
  | Some x, Some y => same_text x y
  | None, None => True
  | _, _ => False
  end.
Proof.
  destruct p as [b1 s1 h1 t1 c1 i1 k1]. unfold handle_data.
  cbn [in_heading current_heading]. destruct i1.
  - destruct h1 as [h|]; [|exact I]. cbn [in_heading current_heading].
    unfold same_text. cbn. rewrite app_assoc. repeat split; reflexivity.
  - cbn [in_heading current_heading]. unfold same_text. cbn.
    rewrite !concat_snoc, !truthy_snoc, app_assoc. repeat split; reflexivity.
Qed.

(** X10: the sections returned do not depend on how the tokenizer cuts a
    run of text into [handle_data] calls: one call with [a ++ b] and two
    calls with [a] and [b] give the same sections (and fail alike). *)
Theorem text_chunking_irrelevant {base : Type} (p : ContentParser base)
        (evs1 evs2 : list event) (a b : str) :
  option_map (fun x => sections (save_last x))
             (run_events p (evs1 ++ Data (a ++ b) :: evs2))
  = option_map (fun x => sections (save_last x))
               (run_events p (evs1 ++ Data a :: Data b :: evs2)).
Proof.
  rewrite !run_events_app.
  destruct (run_events p evs1) as [p1|]; [|reflexivity].
  cbn [run_events dispatch].
  pose proof (handle_data_split p1 a b) as Hs.
  destruct (handle_data p1 (a ++ b)) as [x|];
    destruct (handle_data p1 a) as [p2|];
    try (destruct (handle_data p2 b) as [y|]); try contradiction;
    try reflexivity.
  pose proof (same_text_run evs2 x y Hs) as Hr.
  destruct (run_events x evs2) as [x'|], (run_events y evs2) as [y'|];
    try contradiction; [|reflexivity].
  cbn [option_map]. f_equal. apply same_text_save_last. exact Hr.
Qed.

(** ** Markup made of headings and text *)

Lemma run_data_heading {base : Type} (b : base) (secs : list SectionRecord)
      (t : option str) (c stack : list str) (evs : list event)
      (ts : list str) :
  forall h0,
    run_events (mkParser b secs (Some h0) t c true stack)
               (map Data ts ++ evs)
    = run_events (mkParser b secs (Some (h0 ++ concat ts)) t c true stack)
                 evs.
Proof.
  induction ts as [|x ts IH]; intros h0.
  - cbn [map app concat]. rewrite app_nil_r. reflexivity.
  - cbn [map app run_events dispatch].
    change (handle_data (mkParser b secs (Some h0) t c true stack) x)
      with (Some (mkParser b secs (Some (h0 ++ x)) t c true stack)).
    cbv beta iota. rewrite IH. cbn [concat]. rewrite app_assoc. reflexivity.
Qed.

Lemma run_data_content {base : Type} (b : base) (secs : list SectionRecord)
      (h t : option str) (stack : list str) (evs : list event)
      (ts : list str) :
  forall c,
    run_events (mkParser b secs h t c false stack) (map Data ts ++ evs)
    = run_events (mkParser b secs h t (c ++ ts) false stack) evs.
Proof.
  induction ts as [|x ts IH]; intros c.
  - cbn [map app]. rewrite app_nil_r. reflexivity.
  - cbn [map app run_events dispatch].
    change (handle_data (mkParser b secs h t c false stack) x)
      with (Some (mkParser b secs h t (c ++ [x]) false stack)).
    cbv beta iota. rewrite IH, <- app_assoc. reflexivity.
Qed.

Lemma save_section_heading {base : Type} (b : base)
      (secs : list SectionRecord) (hh tt : str) (c stack : list str)
      (inh : bool) :
  In tt headings ->
  _save_section (mkParser b secs (Some hh) (Some tt) c inh stack)
  = mkParser b (secs ++ heading_section tt hh c) None None [] inh stack.
Proof.
  intros Ht. unfold _save_section, heading_section.
  cbn [current_heading current_heading_type current_content sections
       inherited in_heading tag_stack heading_truthy].
  rewrite (headings_truthy tt Ht).
  destruct (truthy hh || truthy c); [|rewrite app_nil_r; reflexivity].
  destruct hh; reflexivity.
Qed.

(** One block, met while a heading is open. *)
Lemma run_block {base : Type} (b : base) (secs : list SectionRecord)
      (hh tt : str) (c : list str) (inh : bool) (k : block)
      (evs : list event) :
  In tt headings -> In (block_tag k) headings ->
  run_events (mkParser b secs (Some hh) (Some tt) c inh [])
             (events_of_block k ++ evs)
  = run_events (mkParser b (secs ++ heading_section tt hh c)
                         (Some (concat (block_heading k)))
                         (Some (block_tag k)) (block_body k) false [])
               evs.
Proof.
  intros Ht Hk. unfold events_of_block. cbn [app run_events dispatch].
  unfold handle_starttag at 1.
  rewrite (proj2 (str_in_In _ _) Hk). cbn [current_heading is_some].
  rewrite (save_section_heading b secs hh tt c [] inh Ht).
  cbn [inherited sections current_content tag_stack].
  rewrite <- app_assoc, run_data_heading. cbn [app run_events dispatch].
  unfold handle_endtag at 1. rewrite (proj2 (str_in_In _ _) Hk).
  cbn [inherited sections current_heading current_heading_type
       current_content tag_stack].
  rewrite run_data_content. reflexivity.
Qed.

Lemma run_blocks {base : Type} (b : base) (blocks : list block) :
  Forall (fun k => In (block_tag k) headings) blocks ->
  forall (secs : list SectionRecord) (hh tt : str) (c : list str)
         (inh : bool),
    In tt headings ->
    exists p',
      run_events (mkParser b secs (Some hh) (Some tt) c inh [])
                 (flat_map events_of_block blocks)
      = Some p'
      /\ sections (save_last p')
         = secs ++ heading_section tt hh c
           ++ flat_map section_of_block blocks.
Proof.
  induction 1 as [|k blocks Hk _ IH]; intros secs hh tt c inh Ht.
  - eexists. split; [reflexivity|].
    unfold save_last. cbn [current_heading is_some orb].
    rewrite (save_section_heading b secs hh tt c [] inh Ht).
    cbn [sections flat_map]. rewrite app_nil_r. reflexivity.
  - cbn [flat_map]. rewrite (run_block b secs hh tt c inh k _ Ht Hk).
    destruct (IH (secs ++ heading_section tt hh c)
                 (concat (block_heading k)) (block_tag k) (block_body k)
                 false Hk) as (p' & E & Es).
    exists p'. split; [exact E|]. rewrite Es.
    unfold section_of_block at 2. rewrite <- !app_assoc. reflexivity.
Qed.

(** X11: for markup that is a sequence of headings, each with its text
    and the text that follows it, the sections returned are, in the order
    of the markup, one per heading that has heading text or following
    text: its tag, its heading text trimmed, and the following text
    normalized; a heading with neither is left out. *)
Theorem headed_markup_sections {base : Type} (p : ContentParser base)
        (blocks : list block) :
  Forall (fun k => In (block_tag k) headings) blocks ->
  exists p',
    run_events (reset_fields p) (flat_map events_of_block blocks) = Some p'
    /\ sections (save_last p') = flat_map section_of_block blocks.
Proof.
  intros H. destruct H as [|k blocks Hk H].
  - eexists. split; reflexivity.
  - cbn [flat_map]. unfold events_of_block at 1, reset_fields.
    cbn [app run_events dispatch]. unfold handle_starttag at 1.
    rewrite (proj2 (str_in_In _ _) Hk).
    cbn [current_heading is_some inherited sections current_content
         tag_stack].
    rewrite <- app_assoc, run_data_heading. cbn [app run_events dispatch].
    unfold handle_endtag at 1. rewrite (proj2 (str_in_In _ _) Hk).
    cbn [inherited sections current_heading current_heading_type
         current_content tag_stack].
    rewrite run_data_content. cbn [app].
    destruct (run_blocks (inherited p) blocks H []
                (concat (block_heading k)) (block_tag k) (block_body k)
                false Hk) as (p' & E & Es).
    exists p'. split; [exact E|]. rewrite Es. reflexivity.
Qed.

Lemma headed_markup_sections_witness :
  Forall (fun k => In (block_tag k) headings)
         [mkBlock (py "h1") [] [py "A"] [py "first"];
          mkBlock (py "h2") [] [] [];
          mkBlock (py "h2") [] [py "B"] [py "second"]]
  /\ PyHTML.feed PyHTML.base_init
       (py "<h1>A</h1>first<h2></h2><h2>B</h2>second")
     = Some (flat_map events_of_block
               [mkBlock (py "h1") [] [py "A"] [py "first"];
                mkBlock (py "h2") [] [] [];
                mkBlock (py "h2") [] [py "B"] [py "second"]],
             PyHTML.base_init)
  /\ exists p',
       run_events (reset_fields PyHTML.fresh)
         (flat_map events_of_block
            [mkBlock (py "h1") [] [py "A"] [py "first"];
             mkBlock (py "h2") [] [] [];
             mkBlock (py "h2") [] [py "B"] [py "second"]])
       = Some p'
       /\ sections (save_last p')
          = [mkSection (py "h1") (py "A") (py "first");
             mkSection (py "h2") (py "B") (py "second")].
Proof.
  assert (Hb : Forall (fun k => In (block_tag k) headings)
                 [mkBlock (py "h1") [] [py "A"] [py "first"];
                  mkBlock (py "h2") [] [] [];
                  mkBlock (py "h2") [] [py "B"] [py "second"]]).
  { constructor; [left; reflexivity|].
    constructor; [right; left; reflexivity|].
    constructor; [right; left; reflexivity|]. constructor. }
  split; [exact Hb|]. split; [vm_compute; reflexivity|].
  destruct (headed_markup_sections PyHTML.fresh _ Hb) as (p' & E & Es).
  exists p'. split; [exact E|]. rewrite Es. vm_compute. reflexivity.
Defined.
